(** * Spelling-warning parser and reporter, and the Cosmos insert operator

  A shallow embedding of

  - [sphinx_exts/docs_build/spelling_checks.py]: the record
    [SpellingError] with its [__eq__] and [__lt__], the parser
    [parse_spelling_warnings], and the reporter
    [display_spelling_error_summary] with [_display_error];
  - [airflow/providers/microsoft/azure/operators/cosmos.py]:
    [AzureCosmosInsertDocumentOperator.execute].

  Python text is modelled by [string]: a sequence of code points below
  256, with the Unicode character classes of [re] and [str] restricted to
  that range.  Python integers are [Z]. *)

From Stdlib Require Import String Ascii List ZArith NArith Bool Lia.
From Stdlib Require Import Permutation Sorted DecimalString.
Import ListNotations.

Local Open Scope list_scope.
Local Open Scope string_scope.

(** ** Exceptions *)

Inductive exception : Type :=
| ValueError
| TypeError
| OSError
| RuntimeError
| MarkupError.

(** The outcome of a Python expression: a value, or a raised exception. *)
Inductive result (A : Type) : Type :=
| Ok (a : A)
| Raise (e : exception).

Arguments Ok {A} a.
Arguments Raise {A} e.

Definition rbind {A B : Type} (r : result A) (k : A -> result B) : result B :=
  match r with
  | Ok a => k a
  | Raise e => Raise e
  end.

(** [try: body except Exception: handler] *)
Definition try_except {A : Type} (body : result A) (handler : A) : A :=
  match body with
  | Ok a => a
  | Raise _ => handler
  end.

(** ** Characters and strings of Python *)

Module PyStr.

Definition code (c : ascii) : N := N_of_ascii c.

Definition in_range (lo hi : N) (c : ascii) : bool :=
  ((lo <=? code c) && (code c <=? hi))%N.

Definition is_code (n : N) (c : ascii) : bool := (code c =? n)%N.

(** [str.isdecimal]: the digits [int] understands. *)
Definition is_decimal (c : ascii) : bool := in_range 48 57 c.

(** [str.isalnum] below U+0100: letters, decimal digits, and the
    superscripts and fractions that Unicode counts as digits or numbers. *)
Definition is_alnum (c : ascii) : bool :=
  is_decimal c || in_range 65 90 c || in_range 97 122 c
  || is_code 170 c || in_range 178 179 c || is_code 181 c
  || in_range 185 186 c || in_range 188 190 c
  || in_range 192 214 c || in_range 216 246 c || in_range 248 255 c.

(** [\w] of a [str] pattern: alphanumeric or the underscore. *)
Definition is_word (c : ascii) : bool := is_alnum c || is_code 95 c.

(** [\s] of a [str] pattern, which is [str.isspace]. *)
Definition is_space (c : ascii) : bool :=
  in_range 9 13 c || in_range 28 32 c || is_code 133 c || is_code 160 c.

(** The line boundaries of [str.splitlines]. *)
Definition is_linebreak (c : ascii) : bool :=
  in_range 10 13 c || in_range 28 30 c || is_code 133 c.

Definition is_empty (s : string) : bool :=
  match s with
  | EmptyString => true
  | String _ _ => false
  end.

(** Truthiness of a [str]. *)
Definition truthy (s : string) : bool := negb (is_empty s).

Definition snoc (s : string) (c : ascii) : string := s ++ String c EmptyString.

(** [str.splitlines()]: a line ends at a line boundary ("\r\n" counts as
    one); the boundary is dropped; text after the last boundary is a line
    only when it is not empty. *)
Fixpoint splitlines_from (cur : string) (s : string) : list string :=
  match s with
  | EmptyString => if is_empty cur then [] else [cur]
  | String c rest =>
      if is_linebreak c then
        match rest with
        | String d rest' =>
            if is_code 13 c && is_code 10 d
            then cur :: splitlines_from EmptyString rest'
            else cur :: splitlines_from EmptyString rest
        | EmptyString => cur :: splitlines_from EmptyString rest
        end
      else splitlines_from (snoc cur c) rest
  end.

Definition splitlines (s : string) : list string :=
  splitlines_from EmptyString s.

(** No character of the text is a line boundary. *)
Fixpoint no_linebreak (s : string) : bool :=
  match s with
  | EmptyString => true
  | String c rest => negb (is_linebreak c) && no_linebreak rest
  end.

(** *** [int(s)] in base ten *)

(** What [int] skips around the number: the C locale's spaces, and the
    non-ASCII Unicode spaces. *)
Definition is_int_space (c : ascii) : bool :=
  in_range 9 13 c || is_code 32 c || is_code 133 c || is_code 160 c.

Fixpoint lstrip (s : string) : string :=
  match s with
  | String c rest => if is_int_space c then lstrip rest else s
  | EmptyString => EmptyString
  end.

Fixpoint rstrip (s : string) : string :=
  match s with
  | String c rest =>
      let rest' := rstrip rest in
      if is_int_space c && is_empty rest' then EmptyString else String c rest'
  | EmptyString => EmptyString
  end.

Definition digit_value (c : ascii) : Z := Z.of_N (code c) - 48.

(** The digits of a literal, single underscores allowed between them:
    the value read so far and the number of digits. *)
Fixpoint int_digits (s : string) (after_underscore : bool) (acc : Z) (n : nat)
  : option (Z * nat) :=
  match s with
  | EmptyString => if after_underscore then None else Some (acc, n)
  | String c rest =>
      if is_decimal c then int_digits rest false (10 * acc + digit_value c)%Z (S n)
      else if is_code 95 c then
        if after_underscore then None else int_digits rest true acc n
      else None
  end.

(** CPython's default limit on the digits of a decimal literal
    ([sys.int_info.default_max_str_digits]). *)
Definition int_max_str_digits : nat := 4300.

Definition int_unsigned (s : string) : result Z :=
  match s with
  | EmptyString => Raise ValueError
  | String c _ =>
      if is_decimal c then
        match int_digits s false 0%Z 0 with
        | Some (v, n) => if Nat.ltb int_max_str_digits n then Raise ValueError else Ok v
        | None => Raise ValueError
        end
      else Raise ValueError
  end.

Definition int (s : string) : result Z :=
  match rstrip (lstrip s) with
  | String "+" rest => int_unsigned rest
  | String "-" rest => rbind (int_unsigned rest) (fun v => Ok (- v)%Z)
  | t => int_unsigned t
  end.

(** [str(n)] for an [int]. *)
Definition str_of_int (z : Z) : string := NilZero.string_of_int (Z.to_int z).

Fixpoint spaces (n : nat) : string :=
  match n with
  | O => EmptyString
  | S n' => String " " (spaces n')
  end.

(** [f"{n:3}"]: right-aligned in a field of at least [w] characters. *)
Definition format_width (w : nat) (z : Z) : string :=
  let s := str_of_int z in
  spaces (w - String.length s) ++ s.

(** ["c" * n] *)
Fixpoint repeat_char (c : ascii) (n : nat) : string :=
  match n with
  | O => EmptyString
  | S n' => String c (repeat_char c n')
  end.

(** [s.endswith(suffix)] *)
Definition endswith (s suffix : string) : bool :=
  let n := String.length s in
  let m := String.length suffix in
  Nat.leb m n && String.eqb (substring (n - m) m s) suffix.

End PyStr.

(** ** The regular expressions of [re] that the parser uses

    A pattern is a sequence of single-character atoms, each taken once,
    optionally ([?]) or any number of times ([*], greedy), and of capture
    groups around such atoms.  Matching is [re]'s backtracking: a greedy
    quantifier takes the longest run first and gives characters back one at a
    time until the rest of the pattern matches. *)

Module Re.

Inductive charset : Type :=
| Dot                   (* .   any character but a newline *)
| Word                  (* \w *)
| Space                 (* \s *)
| Lit (c : ascii).      (* a literal character *)

Inductive quantifier : Type :=
| Once
| Optional              (* ? *)
| Many.                 (* * *)

Inductive atom : Type :=
| Atom (q : quantifier) (cs : charset).

Inductive item : Type :=
| Plain (a : atom)
| Group (body : list atom).

Definition pattern : Type := list item.

Definition accepts (cs : charset) (c : ascii) : bool :=
  match cs with
  | Dot => negb (PyStr.is_code 10 c)
  | Word => PyStr.is_word c
  | Space => PyStr.is_space c
  | Lit d => Ascii.eqb c d
  end.

Section Matching.
Context {R : Type}.

(** The continuation receives the text matched so far and the text that
    remains; [None] asks for backtracking. *)
Definition cont : Type := string -> string -> option R.

Definition or_else (a : option R) (b : option R) : option R :=
  match a with
  | Some r => Some r
  | None => b
  end.

Fixpoint match_many (cs : charset) (taken s : string) (k : cont) : option R :=
  match s with
  | String c rest =>
      if accepts cs c
      then or_else (match_many cs (PyStr.snoc taken c) rest k) (k taken s)
      else k taken s
  | EmptyString => k taken s
  end.

Definition match_atom (a : atom) (taken s : string) (k : cont) : option R :=
  match a with
  | Atom Once cs =>
      match s with
      | String c rest => if accepts cs c then k (PyStr.snoc taken c) rest else None
      | EmptyString => None
      end
  | Atom Optional cs =>
      match s with
      | String c rest =>
          if accepts cs c
          then or_else (k (PyStr.snoc taken c) rest) (k taken s)
          else k taken s
      | EmptyString => k taken s
      end
  | Atom Many cs => match_many cs taken s k
  end.

Fixpoint match_atoms (body : list atom) (taken s : string) (k : cont) : option R :=
  match body with
  | [] => k taken s
  | a :: body' =>
      match_atom a taken s (fun taken' s' => match_atoms body' taken' s' k)
  end.

(** [groups] are the captures of the groups closed so far, in order. *)
Fixpoint match_items (p : pattern) (groups : list string) (s : string)
  (k : list string -> string -> option R) : option R :=
  match p with
  | [] => k groups s
  | Plain a :: p' =>
      match_atom a EmptyString s (fun _ s' => match_items p' groups s' k)
  | Group body :: p' =>
      match_atoms body EmptyString s
        (fun g s' => match_items p' (groups ++ [g])%list s' k)
  end.

End Matching.

(** [re.match(p, s).groups()], at the start of [s]. *)
Definition match_here (p : pattern) (s : string) : option (list string) :=
  match_items p [] s (fun groups _ => Some groups).

(** [re.search(p, s)]: the first position from the left where [p] matches;
    [m.groups()] of the match found there. *)
Fixpoint search (p : pattern) (s : string) : option (list string) :=
  match match_here p s with
  | Some groups => Some groups
  | None =>
      match s with
      | String _ rest => search p rest
      | EmptyString => None
      end
  end.

(** *** What a pattern matches

    The texts of a pattern, said without the matcher: an atom taken once
    matches one character of its set, an optional atom that or nothing, a
    starred atom any run of characters of its set; a sequence matches the
    texts of its parts one after the other, and a group captures its text. *)

Fixpoint all_accepted (cs : charset) (s : string) : bool :=
  match s with
  | EmptyString => true
  | String c rest => accepts cs c && all_accepted cs rest
  end.

Definition one_accepted (cs : charset) (g : string) : Prop :=
  exists c, g = String c EmptyString /\ accepts cs c = true.

Definition atom_matches (a : atom) (g : string) : Prop :=
  match a with
  | Atom Once cs => one_accepted cs g
  | Atom Optional cs => g = EmptyString \/ one_accepted cs g
  | Atom Many cs => all_accepted cs g = true
  end.

Fixpoint atoms_match (body : list atom) (g : string) : Prop :=
  match body with
  | [] => g = EmptyString
  | a :: body' =>
      exists g1 g2, g = g1 ++ g2 /\ atom_matches a g1 /\ atoms_match body' g2
  end.

Fixpoint items_match (p : pattern) (text : string) (captured : list string) : Prop :=
  match p with
  | [] => text = EmptyString /\ captured = []
  | Plain a :: p' =>
      exists g rest,
        text = g ++ rest /\ atom_matches a g /\ items_match p' rest captured
  | Group body :: p' =>
      exists g rest captured',
        text = g ++ rest /\ atoms_match body g
        /\ captured = g :: captured' /\ items_match p' rest captured'
  end.

(** The longest run of characters of the set at the start of a text, and
    the text after it. *)
Fixpoint take_accepted (cs : charset) (s : string) : string :=
  match s with
  | EmptyString => EmptyString
  | String c rest => if accepts cs c then String c (take_accepted cs rest) else EmptyString
  end.

Fixpoint drop_accepted (cs : charset) (s : string) : string :=
  match s with
  | EmptyString => EmptyString
  | String c rest => if accepts cs c then drop_accepted cs rest else s
  end.

(** The number of capture groups of a pattern. *)
Definition count_groups (p : pattern) : nat :=
  length (filter (fun i => match i with Group _ => true | Plain _ => false end) p).

End Re.

(** ** Paths

    [pathlib.Path] is used through four operations and two comparisons.  The
    flavour of path depends on the platform, so the parser and the reporter are
    stated over any implementation of them. *)

Class PurePath : Type := {
  Path : Type;
  path_eqb : Path -> Path -> bool;          (* p == q *)
  path_ltb : Path -> Path -> bool;          (* p < q *)
  joinpath : Path -> string -> Path;        (* p / s *)
  root_path : Path;                         (* Path("/") *)
  as_posix : Path -> string;                (* p.as_posix() *)
  path_str : Path -> string                 (* str(p) *)
}.

(** What the comparisons of pathlib give: [==] is equality of paths and [<]
    is a strict total order (both compare the lists of the normalised parts of
    the two paths). *)
Class PurePathLaws (pure_path : PurePath) : Prop := {
  path_eqb_eq : forall p q : Path, path_eqb p q = true <-> p = q;
  path_ltb_irrefl : forall p : Path, path_ltb p p = false;
  path_ltb_trans : forall p q r : Path,
    path_ltb p q = true -> path_ltb q r = true -> path_ltb p r = true;
  path_ltb_total : forall p q : Path,
    path_ltb p q = true \/ p = q \/ path_ltb q p = true
}.

(** *** [PurePosixPath]: a path is the list of its parts, the root first. *)

Module Posix.

Definition t : Type := list string.

Fixpoint eqb (p q : t) : bool :=
  match p, q with
  | [], [] => true
  | a :: p', b :: q' => String.eqb a b && eqb p' q'
  | _, _ => false
  end.

(** Python's comparison of two lists of strings. *)
Fixpoint ltb (p q : t) : bool :=
  match p, q with
  | [], [] => false
  | [], _ :: _ => true
  | _ :: _, [] => false
  | a :: p', b :: q' => if String.eqb a b then ltb p' q' else String.ltb a b
  end.

(** [s.split("/")] *)
Fixpoint split_from (cur : string) (s : string) : list string :=
  match s with
  | EmptyString => [cur]
  | String c rest =>
      if PyStr.is_code 47 c then cur :: split_from EmptyString rest
      else split_from (PyStr.snoc cur c) rest
  end.

(** The names of a path text: empty names and "." are dropped. *)
Definition names (s : string) : list string :=
  filter (fun x => PyStr.truthy x && negb (String.eqb x "."))
         (split_from EmptyString s).

(** The root of a path text: "/" for one or for three and more leading
    slashes, "//" for exactly two, none for a relative path. *)
Definition root_of (s : string) : list string :=
  match s with
  | String "/" (String "/" (String "/" _)) => ["/"]
  | String "/" (String "/" _) => ["//"]
  | String "/" _ => ["/"]
  | _ => []
  end.

Definition of_string (s : string) : t := (root_of s ++ names s)%list.

(** [p / s]: an absolute [s] replaces [p]. *)
Definition join (p : t) (s : string) : t :=
  match root_of s with
  | [] => (p ++ names s)%list
  | _ :: _ => of_string s
  end.

Definition str (p : t) : string :=
  match p with
  | [] => "."
  | a :: p' =>
      if String.eqb a "/" || String.eqb a "//"
      then a ++ String.concat "/" p'
      else String.concat "/" p
  end.

End Posix.

#[export] Instance posix_path : PurePath := {|
  Path := Posix.t;
  path_eqb := Posix.eqb;
  path_ltb := Posix.ltb;
  joinpath := Posix.join;
  root_path := Posix.of_string "/";
  as_posix := Posix.str;
  path_str := Posix.str
|}.

(** ** The record and its comparisons *)

(** [x or default] *)
Definition or_default {A : Type} (truthy : A -> bool) (x : option A) (default : A) : A :=
  match x with
  | Some v => if truthy v then v else default
  | None => default
  end.

(** [x == y] where either side may be [None]. *)
Definition option_eqb {A : Type} (eqb : A -> A -> bool) (x y : option A) : bool :=
  match x, y with
  | Some a, Some b => eqb a b
  | None, None => true
  | _, _ => false
  end.

(** One position of Python's comparison of two tuples by [<]: equal items
    pass the decision on to the positions that follow, the first pair of
    unequal items decides by its own [<]. *)
Definition first_difference {A : Type} (eqb ltb : A -> A -> bool) (a b : A)
  (rest : bool) : bool :=
  if eqb a b then rest else ltb a b.

Section Spelling.

Context {pure_path : PurePath}.

Record SpellingError : Type := {
  file_path : option Path;
  line_no : option Z;
  spelling : option string;
  suggestion : option string;
  context_line : option string;
  message : string
}.

Definition __eq__ (self other : SpellingError) : bool :=
  option_eqb path_eqb (file_path self) (file_path other)
  && option_eqb Z.eqb (line_no self) (line_no other)
  && option_eqb String.eqb (spelling self) (spelling other)
  && option_eqb String.eqb (context_line self) (context_line other)
  && String.eqb (message self) (message other).

Definition __ne__ (self other : SpellingError) : bool := negb (__eq__ self other).

(** The key that [__lt__] compares. *)
Definition sort_key (e : SpellingError) : Path * Z * string * string * string :=
  (or_default (fun _ => true) (file_path e) root_path,
   or_default (fun n => negb (Z.eqb n 0)) (line_no e) 0%Z,
   or_default PyStr.truthy (context_line e) "",
   or_default PyStr.truthy (spelling e) "",
   or_default PyStr.truthy (Some (message e)) "").

Definition tuple_lt (left right : Path * Z * string * string * string) : bool :=
  let '(file_path_a, line_no_a, context_line_a, spelling_a, message_a) := left in
  let '(file_path_b, line_no_b, context_line_b, spelling_b, message_b) := right in
  first_difference path_eqb path_ltb file_path_a file_path_b
    (first_difference Z.eqb Z.ltb line_no_a line_no_b
      (first_difference String.eqb String.ltb context_line_a context_line_b
        (first_difference String.eqb String.ltb spelling_a spelling_b
          (first_difference String.eqb String.ltb message_a message_b false)))).

Definition __lt__ (self other : SpellingError) : bool :=
  tuple_lt (sort_key self) (sort_key other).

(** The path a record is sorted by. *)
Definition file_path_or_root (e : SpellingError) : Path :=
  match file_path e with
  | Some p => p
  | None => root_path
  end.

(** The lexicographic order of the keys, as the specification words it. *)
Definition key_lt (k1 k2 : Path * Z * string * string * string) : Prop :=
  let '(p1, n1, c1, t1, m1) := k1 in
  let '(p2, n2, c2, t2, m2) := k2 in
  path_ltb p1 p2 = true
  \/ (p1 = p2
      /\ ((n1 < n2)%Z
          \/ (n1 = n2
              /\ (String.ltb c1 c2 = true
                  \/ (c1 = c2
                      /\ (String.ltb t1 t2 = true
                          \/ (t1 = t2 /\ String.ltb m1 m2 = true))))))).

(** The record [e] with another suggestion. *)
Definition with_suggestion (s : option string) (e : SpellingError) : SpellingError :=
  {| file_path := file_path e;
     line_no := line_no e;
     spelling := spelling e;
     suggestion := s;
     context_line := context_line e;
     message := message e |}.

(** The record [e] with every missing field that [__lt__] reads replaced by
    the value [__lt__] takes for it. *)
Definition with_defaults (e : SpellingError) : SpellingError :=
  {| file_path := Some (file_path_or_root e);
     line_no := Some (match line_no e with Some n => n | None => 0%Z end);
     spelling := Some (match spelling e with Some s => s | None => "" end);
     suggestion := suggestion e;
     context_line := Some (match context_line e with Some s => s | None => "" end);
     message := message e |}.

(** Records with the same key are the same record: the order leaves no ties
    among the records of the list. *)
Definition ties_are_equal (records : list SpellingError) : Prop :=
  forall a b, In a records -> In b records -> sort_key a = sort_key b -> a = b.

(** The optional fields of a record are all present or all absent, as the
    specification words it. *)
Definition is_given {A : Type} (x : option A) : bool :=
  match x with
  | Some _ => true
  | None => false
  end.

Definition optional_fields (e : SpellingError) : list bool :=
  [ is_given (file_path e); is_given (line_no e); is_given (spelling e);
    is_given (suggestion e); is_given (context_line e) ].

Definition jointly_present_or_absent (e : SpellingError) : bool :=
  forallb (fun given => given) (optional_fields e)
  || forallb negb (optional_fields e).

(** ** The parser *)

(** The pattern of the parser, its twelve parts set apart by blanks:
    [(.* )  :  (\w* )  :  \s  \(  (\w* )  \)  \s?  (\w* )  \s?  (.* )]. *)
Definition warning_pattern : Re.pattern :=
  [ Re.Group [Re.Atom Re.Many Re.Dot];
    Re.Plain (Re.Atom Re.Once (Re.Lit ":"));
    Re.Group [Re.Atom Re.Many Re.Word];
    Re.Plain (Re.Atom Re.Once (Re.Lit ":"));
    Re.Plain (Re.Atom Re.Once Re.Space);
    Re.Plain (Re.Atom Re.Once (Re.Lit "("));
    Re.Group [Re.Atom Re.Many Re.Word];
    Re.Plain (Re.Atom Re.Once (Re.Lit ")"));
    Re.Plain (Re.Atom Re.Optional Re.Space);
    Re.Group [Re.Atom Re.Many Re.Word];
    Re.Plain (Re.Atom Re.Optional Re.Space);
    Re.Group [Re.Atom Re.Many Re.Dot] ].

(** The five captured parts as pieces of a text: the text is the parts in
    their order, with the two colons, the parentheses, one space before the
    parenthesis and at most one after it and after the fourth part; the second,
    third and fourth parts are words. *)
Definition optional_space (s : string) : Prop :=
  s = "" \/ Re.one_accepted Re.Space s.

Definition parts_of (text p0 p1 p2 p3 p4 : string) : Prop :=
  exists sp s2 s3,
    text = p0 ++ ":" ++ p1 ++ ":" ++ sp ++ "(" ++ p2 ++ ")" ++ s2 ++ p3 ++ s3 ++ p4
    /\ Re.one_accepted Re.Space sp
    /\ optional_space s2
    /\ optional_space s3
    /\ Re.all_accepted Re.Dot p0 = true
    /\ Re.all_accepted Re.Word p1 = true
    /\ Re.all_accepted Re.Word p2 = true
    /\ Re.all_accepted Re.Word p3 = true
    /\ Re.all_accepted Re.Dot p4 = true.

(** A text holds the shape that the pattern looks for: a colon, a word, a
    colon, a space and a word in parentheses. *)
Definition has_shape (line : string) : Prop :=
  exists before w1 sp w2 after,
    line = before ++ ":" ++ w1 ++ ":" ++ sp ++ "(" ++ w2 ++ ")" ++ after
    /\ Re.all_accepted Re.Word w1 = true
    /\ Re.one_accepted Re.Space sp
    /\ Re.all_accepted Re.Word w2 = true.

(** The record of a line that gave no positional detail. *)
Definition message_only (sphinx_warning : string) : SpellingError :=
  {| file_path := None;
     line_no := None;
     spelling := None;
     suggestion := None;
     context_line := None;
     message := sphinx_warning |}.

(** [int(part) if part not in ("None", "") else None] *)
Definition parse_line_no (part : string) : result (option Z) :=
  if String.eqb part "None" || String.eqb part ""
  then Ok None
  else rbind (PyStr.int part) (fun n => Ok (Some n)).

(** The body of the [try]: the record of the five captured parts. *)
Definition full_record (docs_dir : Path) (part0 part1 part2 part3 part4 : string)
  (sphinx_warning : string) : result SpellingError :=
  let file_path' := joinpath docs_dir part0 in
  rbind (parse_line_no part1) (fun line_no' =>
  Ok {| file_path := Some file_path';
        line_no := line_no';
        spelling := Some part2;
        suggestion := if PyStr.truthy part3 then Some part3 else None;
        context_line := Some part4;
        message := sphinx_warning |}).

(** One turn of the loop over the lines.  [warning_parts] is [None] when
    the pattern is not found; a list of five parts is what
    [warning_parts and len(warning_parts) == 5] asks for. *)
Definition parse_step (docs_dir : Path) (sphinx_spelling_errors : list SpellingError)
  (sphinx_warning : string) : list SpellingError :=
  if negb (PyStr.truthy sphinx_warning) then sphinx_spelling_errors
  else
    let warning_parts := Re.search warning_pattern sphinx_warning in
    match warning_parts with
    | Some [part0; part1; part2; part3; part4] =>
        try_except
          (rbind (full_record docs_dir part0 part1 part2 part3 part4 sphinx_warning)
                 (fun e => Ok (sphinx_spelling_errors ++ [e])%list))
          (sphinx_spelling_errors ++ [message_only sphinx_warning])%list
    | _ => (sphinx_spelling_errors ++ [message_only sphinx_warning])%list
    end.

Definition parse_spelling_warnings (warning_text : string) (docs_dir : Path)
  : list SpellingError :=
  fold_left (parse_step docs_dir) (PyStr.splitlines warning_text) [].

(** The record of the five captured parts, when the line number is [ln]. *)
Definition record_of (docs_dir : Path) (p0 p2 p3 p4 : string) (ln : option Z)
  (line : string) : SpellingError :=
  {| file_path := Some (joinpath docs_dir p0);
     line_no := ln;
     spelling := Some p2;
     suggestion := if PyStr.truthy p3 then Some p3 else None;
     context_line := Some p4;
     message := line |}.

End Spelling.

(** The pattern without its last group. *)
Definition pattern_front : Re.pattern := removelast warning_pattern.

(** The pattern without its first group. *)
Definition pattern_tail : Re.pattern := tl warning_pattern.

(** ** Statements with effects

    A statement runs on a state (the console, or the document store with the
    log of the calls made to it), changes it, and ends normally with a value or
    raises; a raised exception ends the statements that follow. *)

Definition io (S A : Type) : Type := S -> S * result A.

Definition ret {S A : Type} (a : A) : io S A := fun s => (s, Ok a).

Definition bind {S A B : Type} (m : io S A) (k : A -> io S B) : io S B :=
  fun s =>
    match m s with
    | (s', Ok a) => k a s'
    | (s', Raise e) => (s', Raise e)
    end.

Notation "x <- m ;; k" := (bind m (fun x => k))
  (at level 61, m at next level, right associativity).
Notation "m ;; k" := (bind m (fun _ => k))
  (at level 61, right associativity).

(** The value of a call that leaves the state as it is. *)
Definition call {S A : Type} (r : result A) : io S A := fun s => (s, r).

(** [if test: body] *)
Definition when {S : Type} (test : bool) (body : io S unit) : io S unit :=
  if test then body else ret tt.

(** [for x in xs: body x] *)
Fixpoint for_each {S A : Type} (xs : list A) (body : A -> io S unit) : io S unit :=
  match xs with
  | [] => ret tt
  | x :: xs' => body x ;; for_each xs' body
  end.

(** ** The console of rich

    What the reporter needs of the console: [render_str], by which [print]
    turns each text it is given into styled text.  The console reads the text
    as markup, and raises for a text it cannot read (MarkupError for a closing
    tag that closes nothing); whether it raises depends on the text alone. *)

Class RichConsole : Type := {
  render_str : string -> result unit
}.

(** A console for the examples.  It finds the tags of a text as rich does,
    for tags that are not escaped: an opening bracket, a first character among
    the lower-case letters, [#], [/] and [@], and what follows up to the next
    closing bracket, with no opening bracket before it.  The name of a tag is
    its text before the first equals sign.  A name that starts with a slash
    closes the last open tag of the name that follows the slash, or the last
    open tag when nothing follows; a text in which it closes nothing is refused.
    Names are compared as they are written. *)
Module Markup.

Definition tag_start (c : ascii) : bool :=
  PyStr.in_range 97 122 c || Ascii.eqb c "#" || Ascii.eqb c "/" || Ascii.eqb c "@".

(** [text.partition("=")[0]] *)
Fixpoint name_of (tag_text : string) : string :=
  match tag_text with
  | EmptyString => EmptyString
  | String c rest => if Ascii.eqb c "=" then EmptyString else String c (name_of rest)
  end.

(** The open tags, the last opened first, without the last one of the name. *)
Fixpoint pop_style (style_name : string) (style_stack : list string)
  : option (list string) :=
  match style_stack with
  | [] => None
  | name :: below =>
      if String.eqb name style_name then Some below
      else option_map (cons name) (pop_style style_name below)
  end.

(** The open tags after a tag, or [None] when the tag closes nothing. *)
Definition after_tag (tag_text : string) (style_stack : list string)
  : option (list string) :=
  match name_of tag_text with
  | String "/" EmptyString =>
      match style_stack with
      | [] => None
      | _ :: below => Some below
      end
  | String "/" style_name => pop_style style_name style_stack
  | name => Some (name :: style_stack)
  end.

(** [tag] is the text read since the last opening bracket that may still
    start a tag, if there is one. *)
Fixpoint readable (text : string) (tag : option string) (style_stack : list string)
  : bool :=
  match text with
  | EmptyString => true
  | String c rest =>
      if Ascii.eqb c "[" then readable rest (Some EmptyString) style_stack
      else
        match tag with
        | None => readable rest None style_stack
        | Some EmptyString =>
            if tag_start c then readable rest (Some (String c EmptyString)) style_stack
            else readable rest None style_stack
        | Some tag_text =>
            if Ascii.eqb c "]"
            then match after_tag tag_text style_stack with
                 | Some style_stack' => readable rest None style_stack'
                 | None => false
                 end
            else readable rest (Some (PyStr.snoc tag_text c)) style_stack
        end
  end.

Definition render_str (text : string) : result unit :=
  if readable text None [] then Ok tt else Raise MarkupError.

End Markup.

#[export] Instance example_console : RichConsole := {|
  render_str := Markup.render_str
|}.

(** ** The reporter

    The console is modelled by the sequence of its [print] calls that wrote
    something, each with the objects it was given: what rich writes is a
    function of that sequence and of the console's fixed configuration.  The
    file system is read through three collaborators, two of which may raise. *)

Definition console : Type := list (list string).

Section Printing.

Context {rich : RichConsole}.

(** The objects of one call are rendered in order, before anything is
    written. *)
Fixpoint render_all (objects : list string) : result unit :=
  match objects with
  | [] => Ok tt
  | text :: rest => rbind (render_str text) (fun _ => render_all rest)
  end.

(** [console.print( *objects )]: a call that raises writes nothing. *)
Definition print (objects : list string) : io console unit :=
  fun out =>
    match render_all objects with
    | Ok _ => ((out ++ [objects])%list, Ok tt)
    | Raise e => (out, Raise e)
    end.

(** One [print] call after the other, up to the first one that raises. *)
Definition prints (calls : list (list string)) : io console unit :=
  for_each calls print.

(** The console reads every text of the call. *)
Definition accepted (objects : list string) : Prop :=
  render_all objects = Ok tt.

(** The console raises [e] for a text. *)
Definition refused (e : exception) : Prop :=
  exists text, render_str text = Raise e.

End Printing.

(** A statement that only adds to the console: what it prints and how it
    ends do not depend on what was printed before. *)
Definition appends_only {A : Type} (m : io console A) : Prop :=
  forall out, m out = ((out ++ fst (m []))%list, snd (m [])).

(** A statement that raises only exceptions of one kind. *)
Definition raises_only {A : Type} (m : io console A) (allowed : exception -> Prop) : Prop :=
  forall out e, snd (m out) = Raise e -> allowed e.

(** [enumerate(xs, start)] *)
Fixpoint enumerate {A : Type} (start : Z) (xs : list A) : list (Z * A) :=
  match xs with
  | [] => []
  | x :: xs' => (start, x) :: enumerate (start + 1)%Z xs'
  end.

(** [sorted(xs)]: a stable sort that asks only for [<]. *)
Fixpoint insert_sorted {A : Type} (lt : A -> A -> bool) (x : A) (l : list A) : list A :=
  match l with
  | [] => [x]
  | y :: l' => if lt y x then y :: insert_sorted lt x l' else x :: l
  end.

Fixpoint sorted {A : Type} (lt : A -> A -> bool) (xs : list A) : list A :=
  match xs with
  | [] => []
  | x :: xs' => insert_sorted lt x (sorted lt xs')
  end.

(** Python's [<] of two lists: the first pair of unequal items decides; a
    proper prefix is smaller. *)
Fixpoint list_lt {A : Type} (eqb ltb : A -> A -> bool) (xs ys : list A) : bool :=
  match xs, ys with
  | [], [] => false
  | [], _ :: _ => true
  | _ :: _, [] => false
  | x :: xs', y :: ys' => first_difference eqb ltb x y (list_lt eqb ltb xs' ys')
  end.

Definition newline : string := String (ascii_of_nat 10) EmptyString.

Definition dquote : string := String (ascii_of_nat 34) EmptyString.

(** The two lines of the specification's example. *)
Definition example_line : string :=
  "docs/foo.rst:10: (SpellingError) " ++ dquote ++ "teh" ++ dquote ++ " recieve the".

Definition example_text : string := example_line ++ newline ++ "Some bogus line".

Section Reporter.

Context {pure_path : PurePath} {rich : RichConsole}.

(** What the reporter reads from the file system. *)
Record FileSystem : Type := {
  resolve : Path -> result Path;                     (* p.resolve() *)
  isfile : Path -> bool;                             (* os.path.isfile(p) *)
  prepare_code_snippet : Path -> Z -> result string  (* airflow.utils.code_utils *)
}.

Variable fs : FileSystem.

(** Truthiness of an optional text, and the text as an f-string shows it. *)
Definition text_given (x : option string) : bool :=
  match x with
  | Some s => PyStr.truthy s
  | None => false
  end.

Definition text_of (x : option string) : string :=
  match x with
  | Some s => s
  | None => "None"
  end.

(** A path is always true in [if error.file_path:]; a line number is true
    when it is not zero. *)
Definition _display_error (error : SpellingError) : io console unit :=
  print [message error] ;;
  print [] ;;
  match file_path error with
  | Some path =>
      resolved <- call (resolve fs path) ;;
      print ["File path: " ++ path_str resolved] ;;
      when (text_given (spelling error))
        (print ["[red]Incorrect Spelling: '" ++ text_of (spelling error) ++ "'"]) ;;
      when (text_given (suggestion error))
        (print ["Suggested Spelling: '" ++ text_of (suggestion error) ++ "'"]) ;;
      when (text_given (context_line error))
        (print ["Line with Error: '" ++ text_of (context_line error) ++ "'"]) ;;
      match line_no error with
      | Some n =>
          when (negb (PyStr.endswith (as_posix path) "<unknown>")
                && negb (Z.eqb n 0)
                && isfile fs path)
            (print ["Line Number: " ++ PyStr.str_of_int n] ;;
             snippet <- call (prepare_code_snippet fs path n) ;;
             print [snippet])
      | None => ret tt
      end
  | None => ret tt
  end.

(** What an [if test: console.print(...)] adds to the console. *)
Definition printed_if (test : bool) (objects : list string) : console :=
  if test then [objects] else [].

(** The calls for a record with a file path, before its line number. *)
Definition record_lines (error : SpellingError) (resolved : Path) : console :=
  ([[message error]; []; [("File path: " ++ path_str resolved)%string]]
   ++ printed_if (text_given (spelling error))
        [("[red]Incorrect Spelling: '" ++ text_of (spelling error) ++ "'")%string]
   ++ printed_if (text_given (suggestion error))
        [("Suggested Spelling: '" ++ text_of (suggestion error) ++ "'")%string]
   ++ printed_if (text_given (context_line error))
        [("Line with Error: '" ++ text_of (context_line error) ++ "'")%string])%list.

(** [<] of two items of the mapping: the names, then the lists of records. *)
Definition item_lt (a b : string * list SpellingError) : bool :=
  first_difference String.eqb String.ltb (fst a) (fst b)
    (list_lt __eq__ __lt__ (snd a) (snd b)).

(** The order of two items with different names. *)
Definition name_before (a b : string * list SpellingError) : Prop :=
  String.ltb (fst a) (fst b) = true.

Definition banner (title : string) : string :=
  "[red]" ++ PyStr.repeat_char "#" 30 ++ title ++ PyStr.repeat_char "#" 30 ++ "[/]".

Definition msg : string :=
  "[green]" ++ newline ++
  "If there are spelling errors related to class or function name, make sure" ++ newline ++
  "those names are quoted with backticks '`' - this should exclude it from spellcheck process." ++ newline ++
  "If there are spelling errors in the summary above, and the spelling is" ++ newline ++
  "correct, add the spelling to docs/spelling_wordlist.txt or use the" ++ newline ++
  "spelling directive." ++ newline ++
  "Check https://sphinxcontrib-spelling.readthedocs.io/en/latest/customize.html#private-dictionaries" ++ newline ++
  "for more details." ++ newline ++
  newline ++
  "If there are no spelling errors in the summary above, there might be an" ++ newline ++
  "issue unrelated to spelling. Please review the traceback." ++ newline ++
  "    ".

(** The first three and the last five calls of a summary. *)
Definition summary_header : console :=
  [ []; [banner " Start spelling errors summary "]; [] ].

Definition summary_footer : console :=
  [ [PyStr.repeat_char "=" 100]; []; [msg]; [];
    [banner " End docs build errors summary "] ].

(** The exception [e] comes from a collaborator, called for the path of the
    record: from [resolve], or from [prepare_code_snippet] at the line number
    of the record. *)
Definition raised_for (e : exception) (error : SpellingError) : Prop :=
  exists path,
    file_path error = Some path
    /\ (resolve fs path = Raise e
        \/ exists n, line_no error = Some n /\ n <> 0%Z
                     /\ prepare_code_snippet fs path n = Raise e).

(** Two items with the same name and the same records, in any order, the
    order leaving no ties among them. *)
Definition same_records (item item' : string * list SpellingError) : Prop :=
  fst item = fst item'
  /\ Permutation (snd item) (snd item')
  /\ ties_are_equal (snd item).

(** The mapping is the list of its items, in the order of insertion. *)
Definition display_spelling_error_summary
  (spelling_errors : list (string * list SpellingError)) : io console unit :=
  print [] ;;
  print [banner " Start spelling errors summary "] ;;
  print [] ;;
  for_each (sorted item_lt spelling_errors) (fun item =>
    let package_name := fst item in
    let errors := snd item in
    (if PyStr.truthy package_name
     then print [PyStr.repeat_char "=" 30;
                 " [bright_blue]" ++ package_name ++ "[/] ";
                 PyStr.repeat_char "=" 30]
     else print [PyStr.repeat_char "=" 30;
                 " [bright_blue]General[/] ";
                 PyStr.repeat_char "=" 30]) ;;
    for_each (enumerate 1 (sorted __lt__ errors)) (fun numbered =>
      let warning_no := fst numbered in
      let error := snd numbered in
      print [PyStr.repeat_char "-" 30;
             "Error " ++ PyStr.format_width 3 warning_no;
             PyStr.repeat_char "-" 30] ;;
      _display_error error)) ;;
  print [PyStr.repeat_char "=" 100] ;;
  print [] ;;
  print [msg] ;;
  print [] ;;
  print [banner " End docs build errors summary "].

End Reporter.

(** ** The Cosmos insert operator *)

Module Cosmos.

Section Operator.

(** A document ([dict]). *)
Variable Document : Type.

(** [AzureCosmosDBHook]: the client of the document store.  Each method runs
    on the state of the store, may change it, and may raise. *)
Record AzureCosmosDBHook : Type := {
  Store : Type;
  does_database_exist : string -> io Store bool;
  create_database : string -> io Store unit;
  does_collection_exist : string -> string -> io Store bool;
  create_collection : string -> string -> io Store unit;
  upsert_document : Document -> string -> string -> io Store unit
}.

(** The calls an operator makes to its hook. *)
Inductive hook_call : Type :=
| DoesDatabaseExist (database_name : string)
| CreateDatabase (database_name : string)
| DoesCollectionExist (collection_name database_name : string)
| CreateCollection (collection_name database_name : string)
| UpsertDocument (document : Document) (database_name collection_name : string).

Definition is_create (c : hook_call) : bool :=
  match c with
  | CreateDatabase _ | CreateCollection _ _ => true
  | _ => false
  end.

Definition is_upsert (c : hook_call) : bool :=
  match c with
  | UpsertDocument _ _ _ => true
  | _ => false
  end.

(** A method of the hook, with the call written to the log before it runs. *)
Definition logged {S A : Type} (c : hook_call) (method : io S A)
  : io (S * list hook_call) A :=
  fun st =>
    match method (fst st) with
    | (s', r) => ((s', (snd st ++ [c])%list), r)
    end.

Record AzureCosmosInsertDocumentOperator : Type := {
  database_name : string;
  collection_name : string;
  document : Document;
  azure_cosmos_conn_id : string
}.

(** The hook of a connection id: [AzureCosmosDBHook(azure_cosmos_conn_id=...)]. *)
Variable hook_of : string -> AzureCosmosDBHook.

Definition execute (self : AzureCosmosInsertDocumentOperator)
  : io (Store (hook_of (azure_cosmos_conn_id self)) * list hook_call) unit :=
  let hook := hook_of (azure_cosmos_conn_id self) in
  database_exists <-
    logged (DoesDatabaseExist (database_name self))
           (does_database_exist hook (database_name self)) ;;
  when (negb database_exists)
    (logged (CreateDatabase (database_name self))
            (create_database hook (database_name self))) ;;
  collection_exists <-
    logged (DoesCollectionExist (collection_name self) (database_name self))
           (does_collection_exist hook (collection_name self) (database_name self)) ;;
  when (negb collection_exists)
    (logged (CreateCollection (collection_name self) (database_name self))
            (create_collection hook (collection_name self) (database_name self))) ;;
  logged (UpsertDocument (document self) (database_name self) (collection_name self))
         (upsert_document hook (document self) (database_name self) (collection_name self)).

End Operator.

Arguments DoesDatabaseExist {Document} database_name.
Arguments CreateDatabase {Document} database_name.
Arguments DoesCollectionExist {Document} collection_name database_name.
Arguments CreateCollection {Document} collection_name database_name.
Arguments UpsertDocument {Document} document database_name collection_name.
Arguments is_create {Document} c.
Arguments is_upsert {Document} c.
Arguments logged {Document S A} c method.
Arguments database_name {Document} a.
Arguments collection_name {Document} a.
Arguments document {Document} a.
Arguments azure_cosmos_conn_id {Document} a.
Arguments Store {Document} a.
Arguments does_database_exist {Document} a.
Arguments create_database {Document} a.
Arguments does_collection_exist {Document} a.
Arguments create_collection {Document} a.
Arguments upsert_document {Document} a.
Arguments execute {Document} hook_of self.

(** The calls made in a run, the state of the store after it, and how it ended. *)
Definition calls {Document S A : Type} (run : (S * list (hook_call Document)) * result A)
  : list (hook_call Document) := snd (fst run).

Definition store_after {Document S A : Type}
  (run : (S * list (hook_call Document)) * result A) : S := fst (fst run).

Definition outcome {Document S A : Type}
  (run : (S * list (hook_call Document)) * result A) : result A := snd run.

(** The calls of a run in which no call raises, by what the two checks find. *)
Definition planned_calls {Document : Type}
  (self : AzureCosmosInsertDocumentOperator Document)
  (database_exists collection_exists : bool) : list (hook_call Document) :=
  ([DoesDatabaseExist (database_name self)]
   ++ (if database_exists then [] else [CreateDatabase (database_name self)])
   ++ [DoesCollectionExist (collection_name self) (database_name self)]
   ++ (if collection_exists then []
       else [CreateCollection (collection_name self) (database_name self)])
   ++ [UpsertDocument (document self) (database_name self) (collection_name self)])%list.

(** *** A document store in memory, to run the operator on *)

Record memory_store : Type := {
  databases : list string;
  collections : list (string * string);             (* database, collection *)
  documents : list (string * string * string)       (* database, collection, document *)
}.

Definition memory_hook : AzureCosmosDBHook string := {|
  Store := memory_store;
  does_database_exist := fun name s =>
    (s, Ok (existsb (String.eqb name) (databases s)));
  create_database := fun name s =>
    ({| databases := name :: databases s;
        collections := collections s;
        documents := documents s |}, Ok tt);
  does_collection_exist := fun collection database s =>
    (s, Ok (existsb (fun c => String.eqb (fst c) database && String.eqb (snd c) collection)
                    (collections s)));
  create_collection := fun collection database s =>
    ({| databases := databases s;
        collections := (database, collection) :: collections s;
        documents := documents s |}, Ok tt);
  upsert_document := fun doc database collection s =>
    ({| databases := databases s;
        collections := collections s;
        documents := (database, collection, doc) :: documents s |}, Ok tt)
|}.

(** The same store behind a hook that may only read: every write raises. *)
Definition read_only_hook : AzureCosmosDBHook string := {|
  Store := memory_store;
  does_database_exist := does_database_exist memory_hook;
  create_database := fun _ s => (s, Raise RuntimeError);
  does_collection_exist := does_collection_exist memory_hook;
  create_collection := fun _ _ s => (s, Raise RuntimeError);
  upsert_document := fun _ _ _ s => (s, Raise RuntimeError)
|}.

Definition store_with_database : memory_store := {|
  databases := ["airflow"];
  collections := [];
  documents := []
|}.

Definition insert_task : AzureCosmosInsertDocumentOperator string := {|
  database_name := "airflow";
  collection_name := "tasks";
  document := "{id: 1}";
  azure_cosmos_conn_id := "azure_cosmos_default"
|}.

Definition empty_store : memory_store := {|
  databases := [];
  collections := [];
  documents := []
|}.

Definition store_with_tasks : memory_store := {|
  databases := ["airflow"];
  collections := [("airflow", "tasks")];
  documents := []
|}.

End Cosmos.

(** ** Concrete inputs *)

Definition docs_dir_example : Posix.t := Posix.of_string "/opt/airflow/docs".

Definition none_line : string := "docs/foo.rst:None: (teh) the context".

Definition none_record : @SpellingError posix_path :=
  {| file_path := Some ["/"; "opt"; "airflow"; "docs"; "docs"; "foo.rst"];
     line_no := None;
     spelling := Some "teh";
     suggestion := Some "the";
     context_line := Some "context";
     message := none_line |}.

Definition letters_line : string := "docs/foo.rst:abc: (teh) the context".

(** Three lines, the second one empty. *)
Definition text_with_empty_line : string :=
  none_line ++ newline ++ newline ++ letters_line.

(** A file system whose files cannot be read: every excerpt raises. *)
Definition unreadable_files : @FileSystem posix_path :=
  {| resolve := fun p => Ok p;
     isfile := fun _ => true;
     prepare_code_snippet := fun _ _ => Raise OSError |}.

Definition line_three_record : @SpellingError posix_path :=
  {| file_path := Some ["/"; "opt"; "airflow"; "docs"; "a.rst"];
     line_no := Some 3%Z;
     spelling := Some "teh";
     suggestion := Some "the";
     context_line := Some "teh context";
     message := "a.rst:3: (teh) the teh context" |}.

(** A line that holds the shape twice. *)
Definition two_shapes_line : string := "a:1: (x) b:2: (c) d".

Definition two_shapes_record : @SpellingError posix_path :=
  {| file_path := Some ["/"; "opt"; "airflow"; "docs"; "a:1: (x) b"];
     line_no := Some 2%Z;
     spelling := Some "c";
     suggestion := Some "d";
     context_line := Some "";
     message := two_shapes_line |}.

(** One category with two records, in two orders. *)
Definition one_category : list (string * list (@SpellingError posix_path)) :=
  [("apache-airflow", [line_three_record; message_only "Some bogus line"])].

Definition one_category_reordered : list (string * list (@SpellingError posix_path)) :=
  [("apache-airflow", [message_only "Some bogus line"; line_three_record])].

(** A file system with no file at all. *)
Definition no_files : @FileSystem posix_path :=
  {| resolve := fun p => Ok p;
     isfile := fun _ => false;
     prepare_code_snippet := fun _ _ => Raise OSError |}.

(** A file system where every path is a file. *)
Definition all_files : @FileSystem posix_path :=
  {| resolve := fun p => Ok p;
     isfile := fun _ => true;
     prepare_code_snippet := fun _ _ => Ok "   1 | Some text" |}.

Definition line_zero_record : @SpellingError posix_path :=
  {| file_path := Some ["/"; "opt"; "airflow"; "docs"; "a.rst"];
     line_no := Some 0%Z;
     spelling := Some "teh";
     suggestion := Some "the";
     context_line := Some "teh context";
     message := "a.rst:0: (teh) the teh context" |}.

(** * Properties *)

(** ** The order of strings and of lists of strings *)

Lemma string_compare_refl (s : string) : String.compare s s = Eq.
Proof.
  induction s as [|c s IH]; simpl; [reflexivity|].
  unfold Ascii.compare. rewrite N.compare_refl. exact IH.
Qed.

Lemma string_compare_lt_trans (s t u : string) :
  String.compare s t = Lt -> String.compare t u = Lt -> String.compare s u = Lt.
Proof.
  revert t u.
  induction s as [|a s IH]; intros [|b t] [|c u]; simpl; try congruence.
  unfold Ascii.compare.
  destruct (N.compare_spec (N_of_ascii a) (N_of_ascii b)) as [Hab|Hab|Hab];
    destruct (N.compare_spec (N_of_ascii b) (N_of_ascii c)) as [Hbc|Hbc|Hbc];
    try congruence; intros H1 H2.
  - rewrite Hab, Hbc, N.compare_refl. eauto.
  - rewrite Hab. apply N.compare_lt_iff in Hbc. rewrite Hbc. reflexivity.
  - rewrite <- Hbc. apply N.compare_lt_iff in Hab. rewrite Hab. reflexivity.
  - assert (Hac : (N_of_ascii a < N_of_ascii c)%N) by lia.
    apply N.compare_lt_iff in Hac. rewrite Hac. reflexivity.
Qed.

Lemma string_ltb_lt (s t : string) : String.ltb s t = true <-> String.compare s t = Lt.
Proof.
  unfold String.ltb. destruct (String.compare s t); split; congruence.
Qed.

Lemma string_ltb_irrefl (s : string) : String.ltb s s = false.
Proof. unfold String.ltb. rewrite string_compare_refl. reflexivity. Qed.

Lemma string_ltb_trans (s t u : string) :
  String.ltb s t = true -> String.ltb t u = true -> String.ltb s u = true.
Proof. rewrite !string_ltb_lt. apply string_compare_lt_trans. Qed.

Lemma string_ltb_total (s t : string) :
  String.ltb s t = true \/ s = t \/ String.ltb t s = true.
Proof.
  rewrite !string_ltb_lt, (String.compare_antisym t s).
  destruct (String.compare s t) eqn:E; simpl; auto.
  apply String.compare_eq_iff in E. auto.
Qed.

Lemma string_ltb_neq (s t : string) : String.ltb s t = true -> String.eqb s t = false.
Proof.
  intros H. apply String.eqb_neq. intros ->.
  rewrite string_ltb_irrefl in H. discriminate.
Qed.

Lemma posix_eqb_eq (p q : Posix.t) : Posix.eqb p q = true <-> p = q.
Proof.
  revert q. induction p as [|a p IH]; intros [|b q]; simpl; split; try congruence.
  - intros H. apply andb_true_iff in H. destruct H as [Hab Hpq].
    apply String.eqb_eq in Hab. apply IH in Hpq. congruence.
  - intros H. injection H as -> ->.
    rewrite String.eqb_refl. simpl. apply IH. reflexivity.
Qed.

Lemma posix_ltb_irrefl (p : Posix.t) : Posix.ltb p p = false.
Proof.
  induction p as [|a p IH]; simpl; [reflexivity|].
  rewrite String.eqb_refl. exact IH.
Qed.

Lemma posix_ltb_trans (p q r : Posix.t) :
  Posix.ltb p q = true -> Posix.ltb q r = true -> Posix.ltb p r = true.
Proof.
  revert q r.
  induction p as [|a p IH]; intros [|b q] [|c r]; simpl; try congruence.
  destruct (String.eqb_spec a b) as [->|Hab].
  - destruct (String.eqb_spec b c) as [->|Hbc]; [apply IH | auto].
  - destruct (String.eqb_spec b c) as [->|Hbc].
    { intros H1 _. apply String.eqb_neq in Hab. rewrite Hab. exact H1. }
    intros H1 H2. pose proof (string_ltb_trans _ _ _ H1 H2) as H3.
    rewrite (string_ltb_neq _ _ H3). exact H3.
Qed.

Lemma posix_ltb_total (p q : Posix.t) :
  Posix.ltb p q = true \/ p = q \/ Posix.ltb q p = true.
Proof.
  revert q. induction p as [|a p IH]; intros [|b q]; simpl; auto.
  rewrite (String.eqb_sym b a).
  destruct (String.eqb_spec a b) as [->|Hab].
  - destruct (IH q) as [H|[->|H]]; auto.
  - destruct (string_ltb_total a b) as [H|[H|H]]; auto; contradiction.
Qed.

(** [PurePosixPath] compares as pathlib says. *)
Lemma posix_path_laws : PurePathLaws posix_path.
Proof.
  constructor.
  - exact posix_eqb_eq.
  - exact posix_ltb_irrefl.
  - exact posix_ltb_trans.
  - exact posix_ltb_total.
Qed.



(** ** The matcher: a match of a pattern has one capture for each group *)

Lemma or_else_some {R : Type} (a b : option R) (r : R) :
  Re.or_else a b = Some r -> a = Some r \/ b = Some r.
Proof. destruct a; simpl; auto. Qed.

Lemma match_many_continues {R : Type} (cs : Re.charset) (s taken : string)
  (k : Re.cont) (r : R) :
  Re.match_many cs taken s k = Some r -> exists taken' s', k taken' s' = Some r.
Proof.
  revert taken. induction s as [|c s IH]; intros taken; simpl.
  - eauto.
  - destruct (Re.accepts cs c); [|eauto].
    intros H. apply or_else_some in H. destruct H as [H|H]; eauto.
Qed.

Lemma match_atom_continues {R : Type} (a : Re.atom) (s taken : string)
  (k : Re.cont) (r : R) :
  Re.match_atom a taken s k = Some r -> exists taken' s', k taken' s' = Some r.
Proof.
  destruct a as [[| |] cs]; simpl.
  - destruct s as [|c s]; [discriminate|].
    destruct (Re.accepts cs c); [eauto|discriminate].
  - destruct s as [|c s]; [eauto|].
    destruct (Re.accepts cs c); [|eauto].
    intros H. apply or_else_some in H. destruct H as [H|H]; eauto.
  - apply match_many_continues.
Qed.

Lemma match_atoms_continues {R : Type} (body : list Re.atom) (s taken : string)
  (k : Re.cont) (r : R) :
  Re.match_atoms body taken s k = Some r -> exists taken' s', k taken' s' = Some r.
Proof.
  revert s taken. induction body as [|a body IH]; intros s taken; simpl.
  - eauto.
  - intros H. apply match_atom_continues in H.
    destruct H as (taken' & s' & H). eauto.
Qed.

Lemma match_items_groups {R : Type} (p : Re.pattern) (groups : list string) (s : string)
  (k : list string -> string -> option R) (r : R) :
  Re.match_items p groups s k = Some r ->
  exists captured s',
    k (groups ++ captured)%list s' = Some r /\ length captured = Re.count_groups p.
Proof.
  revert groups s. induction p as [|[a|body] p IH]; intros groups s; simpl.
  - intros H. exists [], s. rewrite app_nil_r. auto.
  - intros H. apply match_atom_continues in H. destruct H as (_ & s' & H).
    apply IH in H. exact H.
  - intros H. apply match_atoms_continues in H. destruct H as (g & s' & H).
    apply IH in H. destruct H as (captured & s'' & H & Hlen).
    exists (g :: captured), s''. rewrite <- app_assoc in H. simpl in H.
    split; [exact H|]. unfold Re.count_groups in *. simpl. congruence.
Qed.

Lemma search_groups (p : Re.pattern) (s : string) (groups : list string) :
  Re.search p s = Some groups -> length groups = Re.count_groups p.
Proof.
  induction s as [|c s IH]; simpl.
  - destruct (Re.match_here p "") as [g|] eqn:E; [|discriminate].
    intros H. injection H as <-. unfold Re.match_here in E.
    apply match_items_groups in E. destruct E as (captured & s' & E & Hlen).
    simpl in E. congruence.
  - destruct (Re.match_here p (String c s)) as [g|] eqn:E; [|exact IH].
    intros H. injection H as <-. unfold Re.match_here in E.
    apply match_items_groups in E. destruct E as (captured & s' & E & Hlen).
    simpl in E. congruence.
Qed.

Section SpellingProperties.

Context {pure_path : PurePath}.

(** A match of the parser's pattern always has five groups. *)
Lemma warning_pattern_five_groups (line : string) (groups : list string) :
  Re.search warning_pattern line = Some groups -> length groups = 5.
Proof. apply search_groups. Qed.

Lemma search_truthy (line : string) (groups : list string) :
  Re.search warning_pattern line = Some groups -> PyStr.truthy line = true.
Proof.
  destruct line as [|c line]; [|reflexivity].
  vm_compute. discriminate.
Qed.

(** ** The loop of the parser *)

Lemma parse_step_app (docs_dir : Path) (acc : list SpellingError) (line : string) :
  parse_step docs_dir acc line = (acc ++ parse_step docs_dir [] line)%list.
Proof.
  unfold parse_step.
  destruct (negb (PyStr.truthy line)); [now rewrite app_nil_r|].
  destruct (Re.search warning_pattern line) as [[|p0 [|p1 [|p2 [|p3 [|p4 [|p5 g]]]]]]|];
    try reflexivity.
  destruct (full_record docs_dir p0 p1 p2 p3 p4 line); reflexivity.
Qed.

Lemma parse_loop_app (docs_dir : Path) (lines : list string) (acc : list SpellingError) :
  fold_left (parse_step docs_dir) lines acc
  = (acc ++ flat_map (parse_step docs_dir []) lines)%list.
Proof.
  revert acc. induction lines as [|line lines IH]; intros acc; simpl.
  - now rewrite app_nil_r.
  - rewrite IH, (parse_step_app docs_dir acc line), <- app_assoc. reflexivity.
Qed.

Lemma parse_spelling_warnings_lines (text : string) (docs_dir : Path) :
  parse_spelling_warnings text docs_dir
  = flat_map (parse_step docs_dir []) (PyStr.splitlines text).
Proof. unfold parse_spelling_warnings. now rewrite parse_loop_app. Qed.

Lemma parse_step_blank (docs_dir : Path) (line : string) :
  PyStr.truthy line = false -> parse_step docs_dir [] line = [].
Proof. intros H. unfold parse_step. rewrite H. reflexivity. Qed.

(** What one turn of the loop appends for a line that is not empty. *)
Lemma parse_step_cases (docs_dir : Path) (line : string) :
  PyStr.truthy line = true ->
  parse_step docs_dir [] line = [message_only line]
  \/ exists p0 p1 p2 p3 p4 ln,
       Re.search warning_pattern line = Some [p0; p1; p2; p3; p4]
       /\ parse_line_no p1 = Ok ln
       /\ parse_step docs_dir [] line = [record_of docs_dir p0 p2 p3 p4 ln line].
Proof.
  intros Hline. unfold parse_step. rewrite Hline. simpl.
  destruct (Re.search warning_pattern line) as [[|p0 [|p1 [|p2 [|p3 [|p4 [|p5 g]]]]]]|];
    auto.
  unfold full_record.
  destruct (parse_line_no p1) as [ln|e] eqn:Hln; simpl; auto.
  right. exists p0, p1, p2, p3, p4, ln. auto.
Qed.

Lemma parse_step_message (docs_dir : Path) (line : string) (e : SpellingError) :
  In e (parse_step docs_dir [] line) -> message e = line /\ PyStr.truthy line = true.
Proof.
  destruct (PyStr.truthy line) eqn:Hline.
  - destruct (parse_step_cases docs_dir line Hline)
      as [H|(p0 & p1 & p2 & p3 & p4 & ln & _ & _ & H)];
      rewrite H; intros [<-|[]]; auto.
  - rewrite parse_step_blank by assumption. intros [].
Qed.

Lemma parse_line_no_none (part : string) :
  parse_line_no part = Ok None <-> part = "None" \/ part = "".
Proof.
  unfold parse_line_no.
  destruct (String.eqb_spec part "None") as [->|H1]; simpl; [tauto|].
  destruct (String.eqb_spec part "") as [->|H2]; simpl; [tauto|].
  split; [|tauto].
  destruct (PyStr.int part); simpl; discriminate.
Qed.

(** ** The records of the parser *)

(** C1 (as amended): every record of the parser is either message-only, or
    has its file path, token and context set from one match of the pattern;
    in the second case the line number is absent exactly when the captured
    text is "None" or empty, and the suggestion exactly when the captured
    word is empty. *)
Theorem optional_fields_grouped (text : string) (docs_dir : Path) (e : SpellingError) :
  In e (parse_spelling_warnings text docs_dir) ->
  e = message_only (message e)
  \/ exists p0 p1 p2 p3 p4,
       Re.search warning_pattern (message e) = Some [p0; p1; p2; p3; p4]
       /\ file_path e = Some (joinpath docs_dir p0)
       /\ spelling e = Some p2
       /\ context_line e = Some p4
       /\ (line_no e = None <-> p1 = "None" \/ p1 = "")
       /\ (suggestion e = None <-> p3 = "").
Proof.
  rewrite parse_spelling_warnings_lines, in_flat_map.
  intros (line & _ & He).
  destruct (parse_step_message _ _ _ He) as [Hmsg Hline].
  destruct (parse_step_cases docs_dir line Hline)
    as [H|(p0 & p1 & p2 & p3 & p4 & ln & Hsearch & Hln & H)];
    rewrite H in He; destruct He as [<-|[]].
  - left. reflexivity.
  - right. exists p0, p1, p2, p3, p4. simpl. repeat split; try assumption.
    + intros ->. apply parse_line_no_none. exact Hln.
    + intros Hp1. apply parse_line_no_none in Hp1. congruence.
    + destruct p3; simpl; [reflexivity|discriminate].
    + intros ->. reflexivity.
Qed.

(** C2: a line that matches the pattern with "None" or nothing captured as
    its line number gives a record without line number; the path, the token, the
    suggestion and the context are set from the match as for any other line. *)
Theorem line_no_absent_for_none (text : string) (docs_dir : Path)
  (line p0 p1 p2 p3 p4 : string) :
  In line (PyStr.splitlines text) ->
  Re.search warning_pattern line = Some [p0; p1; p2; p3; p4] ->
  p1 = "None" \/ p1 = "" ->
  In {| file_path := Some (joinpath docs_dir p0);
        line_no := None;
        spelling := Some p2;
        suggestion := if PyStr.truthy p3 then Some p3 else None;
        context_line := Some p4;
        message := line |}
     (parse_spelling_warnings text docs_dir).
Proof.
  intros Hin Hsearch Hp1.
  rewrite parse_spelling_warnings_lines, in_flat_map.
  exists line. split; [exact Hin|].
  unfold parse_step. rewrite (search_truthy _ _ Hsearch), Hsearch. simpl.
  unfold full_record. apply parse_line_no_none in Hp1. rewrite Hp1. simpl. auto.
Qed.


(** C6: of the N lines of the text, the K empty ones give no record; the
    parser returns N - K records, one for each line that is not empty, in the
    order of the lines, each holding its line as the message. *)
Theorem one_record_per_nonempty_line (text : string) (docs_dir : Path) :
  length (parse_spelling_warnings text docs_dir)
  = length (PyStr.splitlines text) - length (filter PyStr.is_empty (PyStr.splitlines text))
  /\ length (filter PyStr.is_empty (PyStr.splitlines text)) <= length (PyStr.splitlines text)
  /\ Forall2 (fun line e => parse_step docs_dir [] line = [e] /\ message e = line)
             (filter PyStr.truthy (PyStr.splitlines text))
             (parse_spelling_warnings text docs_dir).
Proof.
  rewrite parse_spelling_warnings_lines.
  induction (PyStr.splitlines text) as [|line lines (IHlen & IHle & IHrec)]; simpl.
  - repeat split; [lia|constructor].
  - destruct (PyStr.truthy line) eqn:Hline.
    + assert (Hne : PyStr.is_empty line = false).
      { unfold PyStr.truthy in Hline. now destruct (PyStr.is_empty line). }
      rewrite Hne.
      assert (Hone : exists e, parse_step docs_dir [] line = [e] /\ message e = line).
      { destruct (parse_step_cases docs_dir line Hline)
          as [H|(p0 & p1 & p2 & p3 & p4 & ln & _ & _ & H)]; rewrite H; eauto. }
      destruct Hone as (e & He & Hmsg). rewrite He. simpl. repeat split.
      * rewrite IHlen.
        destruct (length (filter PyStr.is_empty lines)) as [|k]; lia.
      * lia.
      * constructor; auto.
    + assert (He : PyStr.is_empty line = true).
      { unfold PyStr.truthy in Hline. now destruct (PyStr.is_empty line). }
      rewrite He, (parse_step_blank docs_dir line Hline). simpl.
      repeat split; [exact IHlen|lia|exact IHrec].
Qed.

(** C7 (as amended): the two-line example gives two records; the first has
    the path, the line number 10, the token, no suggestion, and as context
    the rest of the line from the quoted word on; the second is message-only. *)
Theorem example_two_lines (docs_dir : Path) :
  parse_spelling_warnings example_text docs_dir
  = [ {| file_path := Some (joinpath docs_dir "docs/foo.rst");
         line_no := Some 10%Z;
         spelling := Some "SpellingError";
         suggestion := None;
         context_line := Some (dquote ++ "teh" ++ dquote ++ " recieve the");
         message := example_line |};
      message_only "Some bogus line" ].
Proof.
  assert (Hlines : PyStr.splitlines example_text = [example_line; "Some bogus line"])
    by (vm_compute; reflexivity).
  assert (Hfirst : Re.search warning_pattern example_line
                   = Some ["docs/foo.rst"; "10"; "SpellingError"; "";
                           dquote ++ "teh" ++ dquote ++ " recieve the"])
    by (vm_compute; reflexivity).
  assert (Hsecond : Re.search warning_pattern "Some bogus line" = None)
    by (vm_compute; reflexivity).
  assert (Hten : PyStr.int "10" = Ok 10%Z) by (vm_compute; reflexivity).
  rewrite parse_spelling_warnings_lines, Hlines. cbn [flat_map].
  assert (Hbogus : parse_step docs_dir [] "Some bogus line"
                   = [message_only "Some bogus line"]).
  { unfold parse_step. rewrite Hsecond. reflexivity. }
  rewrite Hbogus. unfold parse_step. rewrite Hfirst.
  replace (negb (PyStr.truthy example_line)) with false by reflexivity.
  unfold full_record, parse_line_no.
  replace (String.eqb "10" "None" || String.eqb "10" "") with false by reflexivity.
  rewrite Hten. reflexivity.
Qed.

End SpellingProperties.

(** ** Comparison of tuples, one position at a time *)

Section FirstDifference.

Variable A : Type.
Variables eqb ltb : A -> A -> bool.
Hypothesis eqb_eq : forall a b, eqb a b = true <-> a = b.
Hypothesis ltb_irrefl : forall a, ltb a a = false.
Hypothesis ltb_trans : forall a b c, ltb a b = true -> ltb b c = true -> ltb a c = true.
Hypothesis ltb_total : forall a b, ltb a b = true \/ a = b \/ ltb b a = true.

Lemma eqb_same (a : A) : eqb a a = true.
Proof. apply eqb_eq. reflexivity. Qed.

Lemma eqb_differ (a b : A) : a <> b -> eqb a b = false.
Proof.
  intros H. destruct (eqb a b) eqn:E; [|reflexivity].
  apply eqb_eq in E. contradiction.
Qed.

Lemma ltb_differ (a b : A) : ltb a b = true -> eqb a b = false.
Proof.
  intros H. apply eqb_differ. intros ->. rewrite ltb_irrefl in H. discriminate.
Qed.

Lemma first_difference_spec (a b : A) (rest : bool) :
  first_difference eqb ltb a b rest = true
  <-> ltb a b = true \/ (a = b /\ rest = true).
Proof.
  unfold first_difference. destruct (eqb a b) eqn:E.
  - apply eqb_eq in E. subst b. rewrite ltb_irrefl.
    split; [auto|]. intros [H|[_ H]]; [discriminate|exact H].
  - split; [auto|]. intros [H|[H _]]; [exact H|].
    subst b. rewrite eqb_same in E. discriminate.
Qed.

Lemma first_difference_trans (a b c : A) (ab bc ac : bool) :
  (ab = true -> bc = true -> ac = true) ->
  first_difference eqb ltb a b ab = true ->
  first_difference eqb ltb b c bc = true ->
  first_difference eqb ltb a c ac = true.
Proof.
  rewrite !first_difference_spec. intros Hrest [H1|[-> H1]] [H2|[-> H2]]; eauto.
Qed.

Lemma first_difference_total (a b : A) (ab ba : bool) (same : Prop) :
  (ab = true \/ same \/ ba = true) ->
  first_difference eqb ltb a b ab = true
  \/ (a = b /\ same)
  \/ first_difference eqb ltb b a ba = true.
Proof.
  rewrite !first_difference_spec.
  intros Hrest. destruct (ltb_total a b) as [H|[->|H]]; auto.
  destruct Hrest as [H|[H|H]]; auto.
Qed.

End FirstDifference.

Lemma option_eqb_eq {A : Type} (eqb : A -> A -> bool) :
  (forall a b, eqb a b = true <-> a = b) ->
  forall x y : option A, option_eqb eqb x y = true <-> x = y.
Proof.
  intros Heq [a|] [b|]; simpl; split; try congruence.
  - intros H. apply Heq in H. congruence.
  - intros H. apply Heq. congruence.
Qed.

Lemma Z_ltb_trans (a b c : Z) : Z.ltb a b = true -> Z.ltb b c = true -> Z.ltb a c = true.
Proof. rewrite !Z.ltb_lt. lia. Qed.

Lemma Z_ltb_total (a b : Z) : Z.ltb a b = true \/ a = b \/ Z.ltb b a = true.
Proof. rewrite !Z.ltb_lt. lia. Qed.

Section OrderProperties.

Context {pure_path : PurePath} {laws : PurePathLaws pure_path}.

Lemma sort_key_defaults (e : SpellingError) :
  sort_key e = (file_path_or_root e,
                match line_no e with Some n => n | None => 0%Z end,
                match context_line e with Some s => s | None => "" end,
                match spelling e with Some s => s | None => "" end,
                message e).
Proof.
  unfold sort_key, file_path_or_root, or_default.
  repeat f_equal.
  - destruct (line_no e) as [n|]; [|reflexivity].
    destruct (Z.eqb_spec n 0); simpl; congruence.
  - destruct (context_line e) as [[|c s]|]; reflexivity.
  - destruct (spelling e) as [[|c s]|]; reflexivity.
  - destruct (message e); reflexivity.
Qed.

Lemma tuple_lt_key_lt (k1 k2 : Path * Z * string * string * string) :
  tuple_lt k1 k2 = true <-> key_lt k1 k2.
Proof.
  destruct k1 as [[[[p1 n1] c1] t1] m1], k2 as [[[[p2 n2] c2] t2] m2].
  unfold tuple_lt, key_lt.
  rewrite (first_difference_spec _ _ _ path_eqb_eq path_ltb_irrefl).
  rewrite (first_difference_spec _ _ _ Z.eqb_eq Z.ltb_irrefl).
  rewrite !(first_difference_spec _ _ _ String.eqb_eq string_ltb_irrefl).
  rewrite Z.ltb_lt. intuition congruence.
Qed.

Lemma tuple_lt_irrefl (k : Path * Z * string * string * string) : tuple_lt k k = false.
Proof.
  destruct k as [[[[p n] c] t] m]. unfold tuple_lt, first_difference.
  rewrite (eqb_same _ _ path_eqb_eq), Z.eqb_refl, !String.eqb_refl. reflexivity.
Qed.

Lemma tuple_lt_trans (k1 k2 k3 : Path * Z * string * string * string) :
  tuple_lt k1 k2 = true -> tuple_lt k2 k3 = true -> tuple_lt k1 k3 = true.
Proof.
  destruct k1 as [[[[p1 n1] c1] t1] m1], k2 as [[[[p2 n2] c2] t2] m2],
           k3 as [[[[p3 n3] c3] t3] m3].
  unfold tuple_lt.
  apply (first_difference_trans _ _ _ path_eqb_eq path_ltb_irrefl path_ltb_trans).
  apply (first_difference_trans _ _ _ Z.eqb_eq Z.ltb_irrefl Z_ltb_trans).
  do 3 apply (first_difference_trans _ _ _ String.eqb_eq string_ltb_irrefl string_ltb_trans).
  discriminate.
Qed.

Lemma tuple_lt_total (k1 k2 : Path * Z * string * string * string) :
  tuple_lt k1 k2 = true \/ k1 = k2 \/ tuple_lt k2 k1 = true.
Proof.
  destruct k1 as [[[[p1 n1] c1] t1] m1], k2 as [[[[p2 n2] c2] t2] m2].
  unfold tuple_lt.
  destruct (first_difference_total _ _ _ path_eqb_eq path_ltb_irrefl path_ltb_total
              p1 p2
              (first_difference Z.eqb Z.ltb n1 n2
                (first_difference String.eqb String.ltb c1 c2
                  (first_difference String.eqb String.ltb t1 t2
                    (first_difference String.eqb String.ltb m1 m2 false))))
              (first_difference Z.eqb Z.ltb n2 n1
                (first_difference String.eqb String.ltb c2 c1
                  (first_difference String.eqb String.ltb t2 t1
                    (first_difference String.eqb String.ltb m2 m1 false))))
              ((n1, c1, t1, m1) = (n2, c2, t2, m2))) as [H|[[-> H]|H]]; auto.
  2: { right. left. congruence. }
  destruct (first_difference_total _ _ _ Z.eqb_eq Z.ltb_irrefl Z_ltb_total
              n1 n2
              (first_difference String.eqb String.ltb c1 c2
                (first_difference String.eqb String.ltb t1 t2
                  (first_difference String.eqb String.ltb m1 m2 false)))
              (first_difference String.eqb String.ltb c2 c1
                (first_difference String.eqb String.ltb t2 t1
                  (first_difference String.eqb String.ltb m2 m1 false)))
              ((c1, t1, m1) = (c2, t2, m2))) as [H|[[-> H]|H]]; auto.
  2: { right. left. congruence. }
  destruct (first_difference_total _ _ _ String.eqb_eq string_ltb_irrefl string_ltb_total
              c1 c2
              (first_difference String.eqb String.ltb t1 t2
                (first_difference String.eqb String.ltb m1 m2 false))
              (first_difference String.eqb String.ltb t2 t1
                (first_difference String.eqb String.ltb m2 m1 false))
              ((t1, m1) = (t2, m2))) as [H|[[-> H]|H]]; auto.
  2: { right. left. congruence. }
  destruct (first_difference_total _ _ _ String.eqb_eq string_ltb_irrefl string_ltb_total
              t1 t2
              (first_difference String.eqb String.ltb m1 m2 false)
              (first_difference String.eqb String.ltb m2 m1 false)
              (m1 = m2)) as [H|[[-> H]|H]]; auto.
  2: { right. left. congruence. }
  destruct (first_difference_total _ _ _ String.eqb_eq string_ltb_irrefl string_ltb_total
              m1 m2 false false True) as [H|[[-> H]|H]]; auto.
Qed.

(** Two records of one run of the parser that have the same key are the same
    record: on them the order leaves no ties. *)
Lemma parsed_records_same_key (text : string) (docs_dir : Path) (a b : SpellingError) :
  In a (parse_spelling_warnings text docs_dir) ->
  In b (parse_spelling_warnings text docs_dir) ->
  sort_key a = sort_key b -> a = b.
Proof.
  rewrite parse_spelling_warnings_lines, !in_flat_map.
  intros (la & _ & Ha) (lb & _ & Hb) Hkey.
  destruct (parse_step_message _ _ _ Ha) as [Hma Hta].
  destruct (parse_step_message _ _ _ Hb) as [Hmb _].
  rewrite !sort_key_defaults in Hkey.
  assert (Hlines : lb = la) by congruence.
  rewrite Hlines in Hb. clear Hlines Hmb lb.
  destruct (parse_step_cases docs_dir la Hta)
    as [H|(p0 & p1 & p2 & p3 & p4 & ln & _ & _ & H)];
    rewrite H in Ha, Hb;
    destruct Ha as [<-|[]]; destruct Hb as [<-|[]]; reflexivity.
Qed.

(** C4: [__lt__] compares the keys (file path, line number, context, token,
    message), a missing path standing for the root, a missing number for zero
    and a missing text for the empty text; the comparison is lexicographic, it
    is a strict order, any two records with different keys are ordered, a
    smaller path alone puts a record first, and two records of one run of the
    parser have different keys. *)
Theorem lt_orders_by_sort_key :
  (forall e : SpellingError,
     sort_key e = (file_path_or_root e,
                   match line_no e with Some n => n | None => 0%Z end,
                   match context_line e with Some s => s | None => "" end,
                   match spelling e with Some s => s | None => "" end,
                   message e))
  /\ (forall a b, __lt__ a b = true <-> key_lt (sort_key a) (sort_key b))
  /\ (forall a, __lt__ a a = false)
  /\ (forall a b c, __lt__ a b = true -> __lt__ b c = true -> __lt__ a c = true)
  /\ (forall a b, __lt__ a b = true \/ sort_key a = sort_key b \/ __lt__ b a = true)
  /\ (forall a b,
        path_ltb (file_path_or_root a) (file_path_or_root b) = true ->
        __lt__ a b = true /\ __lt__ b a = false)
  /\ (forall text docs_dir a b,
        In a (parse_spelling_warnings text docs_dir) ->
        In b (parse_spelling_warnings text docs_dir) ->
        sort_key a = sort_key b -> a = b).
Proof.
  split; [exact sort_key_defaults|].
  split; [intros a b; apply tuple_lt_key_lt|].
  split; [intros a; apply tuple_lt_irrefl|].
  split; [intros a b c; apply tuple_lt_trans|].
  split; [intros a b; apply tuple_lt_total|].
  split; [|exact parsed_records_same_key].
  intros a b Hpath.
  assert (Hab : __lt__ a b = true).
  { apply tuple_lt_key_lt. rewrite !sort_key_defaults. left. exact Hpath. }
  split; [exact Hab|].
  destruct (__lt__ b a) eqn:Hba; [|reflexivity].
  pose proof (tuple_lt_trans _ _ _ Hab Hba) as Haa.
  unfold __lt__ in Haa. rewrite tuple_lt_irrefl in Haa. discriminate.
Qed.

(** C5: [__eq__] holds exactly when the two records have the same file path,
    line number, token, context and message; the suggestion plays no part. *)
Theorem eq_ignores_suggestion :
  (forall a b : SpellingError,
     __eq__ a b = true
     <-> file_path a = file_path b
         /\ line_no a = line_no b
         /\ spelling a = spelling b
         /\ context_line a = context_line b
         /\ message a = message b)
  /\ (forall (e : SpellingError) (s1 s2 : option string),
        __eq__ (with_suggestion s1 e) (with_suggestion s2 e) = true).
Proof.
  assert (Heq : forall a b : SpellingError,
     __eq__ a b = true
     <-> file_path a = file_path b
         /\ line_no a = line_no b
         /\ spelling a = spelling b
         /\ context_line a = context_line b
         /\ message a = message b).
  { intros a b. unfold __eq__. rewrite !andb_true_iff.
    rewrite (option_eqb_eq path_eqb path_eqb_eq).
    rewrite (option_eqb_eq Z.eqb Z.eqb_eq).
    rewrite !(option_eqb_eq String.eqb String.eqb_eq).
    rewrite String.eqb_eq. tauto. }
  split; [exact Heq|].
  intros e s1 s2. apply Heq. simpl. auto.
Qed.

End OrderProperties.

(** ** Sorting *)

Section Sorting.

Variable A : Type.
Variable lt : A -> A -> bool.

Lemma insert_sorted_perm (x : A) (l : list A) :
  Permutation (insert_sorted lt x l) (x :: l).
Proof.
  induction l as [|y l IH]; simpl; [reflexivity|].
  destruct (lt y x); [|reflexivity].
  rewrite IH. apply perm_swap.
Qed.

Lemma sorted_perm (l : list A) : Permutation (sorted lt l) l.
Proof.
  induction l as [|x l IH]; simpl; [reflexivity|].
  rewrite insert_sorted_perm. now constructor.
Qed.

(** A strict order that decides [lt] on the items of the list at hand. *)
Variable before : A -> A -> Prop.
Hypothesis before_irrefl : forall x, ~ before x x.
Hypothesis before_trans : forall x y z, before x y -> before y z -> before x z.

Lemma insert_sorted_ordered (x : A) (l : list A) :
  (forall y, In y l -> (lt y x = true /\ before y x) \/ (lt y x = false /\ before x y)) ->
  StronglySorted before l ->
  StronglySorted before (insert_sorted lt x l).
Proof.
  intros Hdec Hsorted. induction Hsorted as [|y l Hsorted IH Hy]; simpl.
  - repeat constructor.
  - destruct (Hdec y (or_introl eq_refl)) as [[Hlt Hyx]|[Hlt Hxy]]; rewrite Hlt.
    + constructor.
      * apply IH. intros z Hz. apply Hdec. now right.
      * apply (Permutation_Forall (Permutation_sym (insert_sorted_perm x l))).
        now constructor.
    + constructor; [now constructor|].
      constructor; [exact Hxy|].
      rewrite Forall_forall in *. eauto.
Qed.

Lemma sorted_unique (l1 l2 : list A) :
  StronglySorted before l1 -> StronglySorted before l2 ->
  Permutation l1 l2 -> l1 = l2.
Proof.
  intros H1. revert l2. induction H1 as [|x l1 H1 IH Hx]; intros l2 H2 Hperm.
  - apply Permutation_nil in Hperm. now subst.
  - destruct H2 as [|y l2 H2 Hy].
    + apply Permutation_sym, Permutation_nil in Hperm. discriminate.
    + assert (Hxy : x = y).
      { assert (Hin1 : In x (y :: l2)) by (apply (Permutation_in _ Hperm); now left).
        assert (Hin2 : In y (x :: l1))
          by (apply (Permutation_in _ (Permutation_sym Hperm)); now left).
        destruct Hin1 as [->|Hin1]; [reflexivity|].
        destruct Hin2 as [->|Hin2]; [reflexivity|].
        rewrite Forall_forall in Hx, Hy.
        exfalso. apply (before_irrefl x). eauto. }
      subst y. f_equal. apply IH; [exact H2|].
      now apply Permutation_cons_inv in Hperm.
Qed.

End Sorting.

(** ** The reporter only adds to the console *)

Lemma appends_print {rich : RichConsole} (objects : list string) :
  appends_only (print objects).
Proof.
  intros out. unfold print. destruct (render_all objects); simpl;
    [reflexivity|now rewrite app_nil_r].
Qed.

Lemma appends_ret {A : Type} (a : A) : appends_only (ret a).
Proof. intros out. unfold ret. simpl. now rewrite app_nil_r. Qed.

Lemma appends_call {A : Type} (r : result A) : appends_only (call r).
Proof. intros out. unfold call. simpl. now rewrite app_nil_r. Qed.

Lemma appends_bind {A B : Type} (m : io console A) (k : A -> io console B) :
  appends_only m -> (forall a, appends_only (k a)) -> appends_only (bind m k).
Proof.
  intros Hm Hk out. unfold bind. rewrite (Hm out).
  destruct (m []) as [printed [a|e]]; simpl.
  - rewrite (Hk a (out ++ printed)%list), (Hk a printed). simpl.
    now rewrite app_assoc.
  - reflexivity.
Qed.

Lemma appends_when (test : bool) (body : io console unit) :
  appends_only body -> appends_only (when test body).
Proof. intros H. destruct test; [exact H|apply appends_ret]. Qed.

Lemma appends_for_each {A : Type} (xs : list A) (body : A -> io console unit) :
  (forall x, appends_only (body x)) -> appends_only (for_each xs body).
Proof.
  intros H. induction xs as [|x xs IH]; simpl.
  - apply appends_ret.
  - apply appends_bind; auto.
Qed.

Ltac appends_step :=
  first [ apply appends_bind; [|intro]
        | apply appends_when
        | apply appends_for_each; intro
        | apply appends_print
        | apply appends_call
        | apply appends_ret ].

(** *** Calls that the console takes *)

Section PrintingProperties.

Context {rich : RichConsole}.

Lemma prints_accepted (calls : list (list string)) (out : console) :
  Forall accepted calls -> prints calls out = ((out ++ calls)%list, Ok tt).
Proof.
  intros H. revert out. induction H as [|objects calls Hobjects _ IH]; intros out.
  - unfold prints. simpl. unfold ret. now rewrite app_nil_r.
  - unfold prints in *. simpl. unfold bind, print. rewrite Hobjects, IH.
    now rewrite <- app_assoc.
Qed.

Lemma prints_raises (calls : list (list string)) (out : console) (e : exception) :
  snd (prints calls out) = Raise e ->
  exists objects, In objects calls /\ render_all objects = Raise e.
Proof.
  revert out. induction calls as [|objects calls IH]; intros out.
  - discriminate.
  - unfold prints in *. simpl. unfold bind, print.
    destruct (render_all objects) as [[]|e'] eqn:E.
    + intros H. apply IH in H. destruct H as (objects' & Hin & H).
      exists objects'. split; [now right|exact H].
    + simpl. intros H. injection H as <-. exists objects. split; [now left|exact E].
Qed.

Lemma render_all_raises (objects : list string) (e : exception) :
  render_all objects = Raise e ->
  exists text, In text objects /\ render_str text = Raise e.
Proof.
  induction objects as [|text objects IH]; simpl; [discriminate|].
  destruct (render_str text) as [[]|e'] eqn:E; simpl.
  - intros H. destruct (IH H) as (text' & Hin & H'). exists text'. auto.
  - intros H. injection H as <-. exists text. auto.
Qed.

End PrintingProperties.

(** Both sides make the same [print] calls: one case for each call, the
    console taking it or not. *)
Ltac same_prints :=
  unfold prints, printed_if, when; simpl; unfold bind, call, ret, print; simpl;
  repeat match goal with
         | |- context [render_str ?text] =>
             destruct (render_str text) as [[]|?]; simpl
         end;
  rewrite <- ?app_assoc; simpl; try reflexivity.

Section ReporterProperties.

Context {pure_path : PurePath} {rich : RichConsole}.
Variable fs : FileSystem.

Lemma appends_display_error (error : SpellingError) :
  appends_only (_display_error fs error).
Proof.
  unfold _display_error.
  destruct (file_path error) as [path|], (line_no error) as [n|];
    repeat appends_step.
Qed.

Lemma appends_display_summary (spelling_errors : list (string * list SpellingError)) :
  appends_only (display_spelling_error_summary fs spelling_errors).
Proof.
  unfold display_spelling_error_summary.
  repeat first
    [ apply appends_display_error
    | appends_step
    | match goal with |- appends_only (if ?test then _ else _) => destruct test end ].
Qed.

(** *** The order of the categories *)

Lemma name_before_irrefl (a : string * list SpellingError) : ~ name_before a a.
Proof. unfold name_before. rewrite string_ltb_irrefl. discriminate. Qed.

Lemma name_before_trans (a b c : string * list SpellingError) :
  name_before a b -> name_before b c -> name_before a c.
Proof. apply string_ltb_trans. Qed.

Lemma item_lt_names (a b : string * list SpellingError) :
  fst a <> fst b ->
  (item_lt a b = true /\ name_before a b) \/ (item_lt a b = false /\ name_before b a).
Proof.
  intros Hne. unfold item_lt, first_difference, name_before.
  rewrite (proj2 (String.eqb_neq _ _) Hne).
  destruct (string_ltb_total (fst a) (fst b)) as [H|[H|H]]; [auto|contradiction|].
  right. split; [|exact H].
  destruct (String.ltb (fst a) (fst b)) eqn:E; [|reflexivity].
  pose proof (string_ltb_trans _ _ _ E H) as Hrefl.
  rewrite string_ltb_irrefl in Hrefl. discriminate.
Qed.

Lemma sorted_items_ordered (items : list (string * list SpellingError)) :
  NoDup (map fst items) -> StronglySorted name_before (sorted item_lt items).
Proof.
  induction items as [|x items IH]; simpl; intros Hnodup.
  - constructor.
  - inversion Hnodup as [|name names Hnotin Hrest]; subst.
    apply (insert_sorted_ordered _ _ _ name_before_trans); [|auto].
    intros y Hy. apply item_lt_names. intros Heq. apply Hnotin.
    rewrite <- Heq. apply in_map.
    apply (Permutation_in _ (sorted_perm _ item_lt items)). exact Hy.
Qed.

Lemma sorted_items_permutation (items items' : list (string * list SpellingError)) :
  NoDup (map fst items) -> Permutation items items' ->
  sorted item_lt items' = sorted item_lt items.
Proof.
  intros Hnodup Hperm.
  apply (sorted_unique _ name_before name_before_irrefl name_before_trans).
  - apply sorted_items_ordered.
    apply (Permutation_NoDup (Permutation_map fst Hperm) Hnodup).
  - apply sorted_items_ordered. exact Hnodup.
  - rewrite !sorted_perm. now symmetry.
Qed.

(** C9: two renderings of the same mapping, with the same file system, print
    the same things and end the same way, whatever the console held before;
    and the order in which the categories were put into the mapping does not
    show in what is printed. *)
Theorem reporter_deterministic (spelling_errors : list (string * list SpellingError)) :
  (forall out1 out2 : console,
     exists printed outcome,
       display_spelling_error_summary fs spelling_errors out1
       = ((out1 ++ printed)%list, outcome)
       /\ display_spelling_error_summary fs spelling_errors out2
          = ((out2 ++ printed)%list, outcome))
  /\ (forall (reordered : list (string * list SpellingError)) (out : console),
        NoDup (map fst spelling_errors) ->
        Permutation spelling_errors reordered ->
        display_spelling_error_summary fs reordered out
        = display_spelling_error_summary fs spelling_errors out).
Proof.
  split.
  - intros out1 out2.
    exists (fst (display_spelling_error_summary fs spelling_errors [])),
           (snd (display_spelling_error_summary fs spelling_errors [])).
    split; apply appends_display_summary.
  - intros reordered out Hnodup Hperm.
    unfold display_spelling_error_summary.
    rewrite (sorted_items_permutation _ _ Hnodup Hperm). reflexivity.
Qed.

(** C10: for a record with a file path and the line number 0, both the
    line-number line and the excerpt are left out, also when the path does not
    end in the unknown-location marker and names a file on disk: the calls
    made are the message, a blank line, the resolved path, and the token,
    suggestion and context that are given, up to the first call that the
    console refuses; when it refuses none, that is what is printed. *)
Theorem line_number_zero_not_shown (error : SpellingError) (path : Path) (out : console) :
  file_path error = Some path ->
  line_no error = Some 0%Z ->
  PyStr.endswith (as_posix path) "<unknown>" = false ->
  isfile fs path = true ->
  _display_error fs error out =
  match resolve fs path with
  | Ok resolved => prints (record_lines error resolved) out
  | Raise exn => (prints [[message error]; []] ;; call (Raise exn)) out
  end
  /\ (Forall accepted
        match resolve fs path with
        | Ok resolved => record_lines error resolved
        | Raise _ => [[message error]; []]
        end ->
      _display_error fs error out =
      match resolve fs path with
      | Ok resolved =>
          ((out ++ [[message error]; []; [("File path: " ++ path_str resolved)%string]]
                ++ printed_if (text_given (spelling error))
                     [("[red]Incorrect Spelling: '" ++ text_of (spelling error) ++ "'")%string]
                ++ printed_if (text_given (suggestion error))
                     [("Suggested Spelling: '" ++ text_of (suggestion error) ++ "'")%string]
                ++ printed_if (text_given (context_line error))
                     [("Line with Error: '" ++ text_of (context_line error) ++ "'")%string])%list,
           Ok tt)
      | Raise exn => ((out ++ [[message error]; []])%list, Raise exn)
      end).
Proof.
  intros Hpath Hline Hmarker Hfile.
  assert (Hcalls : _display_error fs error out =
                   match resolve fs path with
                   | Ok resolved => prints (record_lines error resolved) out
                   | Raise exn => (prints [[message error]; []] ;; call (Raise exn)) out
                   end).
  { unfold _display_error, record_lines. rewrite Hpath, Hline, Hmarker, Hfile.
    destruct (resolve fs path) as [resolved|exn];
      destruct (text_given (spelling error)), (text_given (suggestion error)),
        (text_given (context_line error)); same_prints. }
  split; [exact Hcalls|].
  intros Haccepted. rewrite Hcalls.
  destruct (resolve fs path) as [resolved|exn].
  - now rewrite (prints_accepted _ out Haccepted).
  - unfold bind, call. now rewrite (prints_accepted _ out Haccepted).
Qed.

(** X8: with any other line number the same record has two calls more,
    the line number and the excerpt: the calls are made in order, up to the
    first one that the console refuses. *)
Lemma line_number_shown (error : SpellingError) (path resolved : Path) (n : Z)
  (snippet : string) (out : console) :
  file_path error = Some path ->
  line_no error = Some n ->
  n <> 0%Z ->
  PyStr.endswith (as_posix path) "<unknown>" = false ->
  isfile fs path = true ->
  resolve fs path = Ok resolved ->
  prepare_code_snippet fs path n = Ok snippet ->
  _display_error fs error out =
  prints (record_lines error resolved
          ++ [[("Line Number: " ++ PyStr.str_of_int n)%string]; [snippet]])%list out.
Proof.
  intros Hpath Hline Hn Hmarker Hfile Hresolve Hsnippet.
  unfold _display_error, record_lines. rewrite Hpath, Hline, Hmarker, Hfile, Hresolve.
  apply Z.eqb_neq in Hn. rewrite Hn, Hsnippet.
  destruct (text_given (spelling error)), (text_given (suggestion error)),
    (text_given (context_line error)); same_prints.
Qed.

End ReporterProperties.

(** ** The Cosmos insert operator *)

(** C8: when the database and the collection are both found, [execute] makes
    no create call and one upsert call, with the document, the database name
    and the collection name of the operator. *)
Theorem execute_existing_database_and_collection {Document : Type}
  (hook_of : string -> Cosmos.AzureCosmosDBHook Document)
  (self : Cosmos.AzureCosmosInsertDocumentOperator Document)
  (store store1 store2 : Cosmos.Store (hook_of (Cosmos.azure_cosmos_conn_id self))) :
  Cosmos.does_database_exist (hook_of (Cosmos.azure_cosmos_conn_id self))
    (Cosmos.database_name self) store = (store1, Ok true) ->
  Cosmos.does_collection_exist (hook_of (Cosmos.azure_cosmos_conn_id self))
    (Cosmos.collection_name self) (Cosmos.database_name self) store1 = (store2, Ok true) ->
  Cosmos.calls (Cosmos.execute hook_of self (store, []))
  = [ Cosmos.DoesDatabaseExist (Cosmos.database_name self);
      Cosmos.DoesCollectionExist (Cosmos.collection_name self) (Cosmos.database_name self);
      Cosmos.UpsertDocument (Cosmos.document self) (Cosmos.database_name self)
        (Cosmos.collection_name self) ]
  /\ filter Cosmos.is_create (Cosmos.calls (Cosmos.execute hook_of self (store, []))) = []
  /\ filter Cosmos.is_upsert (Cosmos.calls (Cosmos.execute hook_of self (store, [])))
     = [ Cosmos.UpsertDocument (Cosmos.document self) (Cosmos.database_name self)
           (Cosmos.collection_name self) ]
  /\ (Cosmos.store_after (Cosmos.execute hook_of self (store, [])),
      Cosmos.outcome (Cosmos.execute hook_of self (store, [])))
     = Cosmos.upsert_document (hook_of (Cosmos.azure_cosmos_conn_id self))
         (Cosmos.document self) (Cosmos.database_name self) (Cosmos.collection_name self)
         store2.
Proof.
  intros Hdatabase Hcollection.
  assert (Hrun : Cosmos.execute hook_of self (store, [])
    = Cosmos.logged
        (Cosmos.UpsertDocument (Cosmos.document self) (Cosmos.database_name self)
           (Cosmos.collection_name self))
        (Cosmos.upsert_document (hook_of (Cosmos.azure_cosmos_conn_id self))
           (Cosmos.document self) (Cosmos.database_name self) (Cosmos.collection_name self))
        (store2,
         [ Cosmos.DoesDatabaseExist (Cosmos.database_name self);
           Cosmos.DoesCollectionExist (Cosmos.collection_name self)
             (Cosmos.database_name self) ])).
  { unfold Cosmos.execute, bind, Cosmos.logged at 1. simpl fst. simpl snd.
    rewrite Hdatabase. simpl.
    unfold Cosmos.logged at 1. simpl fst. simpl snd. rewrite Hcollection. reflexivity. }
  rewrite Hrun. unfold Cosmos.logged, Cosmos.calls, Cosmos.store_after, Cosmos.outcome.
  simpl fst. simpl snd.
  destruct (Cosmos.upsert_document _ _ _ _ store2) as [store3 ended]. simpl.
  repeat split.
Qed.

(** ** The claims on concrete inputs *)

(** C1 as stated fails: the record of a line whose line number is "None"
    has a path, a token, a suggestion and a context, and no line number. *)
Lemma optional_fields_not_joint :
  parse_spelling_warnings none_line docs_dir_example = [none_record]
  /\ optional_fields none_record = [true; false; true; true; true]
  /\ jointly_present_or_absent none_record = false.
Proof. repeat split; vm_compute; reflexivity. Qed.

Lemma optional_fields_grouped_witness :
  In none_record (parse_spelling_warnings none_line docs_dir_example)
  /\ (none_record = message_only (message none_record)
      \/ exists p0 p1 p2 p3 p4,
           Re.search warning_pattern (message none_record) = Some [p0; p1; p2; p3; p4]
           /\ file_path none_record = Some (joinpath docs_dir_example p0)
           /\ spelling none_record = Some p2
           /\ context_line none_record = Some p4
           /\ (line_no none_record = None <-> p1 = "None" \/ p1 = "")
           /\ (suggestion none_record = None <-> p3 = "")).
Proof.
  assert (Hin : In none_record (parse_spelling_warnings none_line docs_dir_example))
    by (vm_compute; auto).
  split; [exact Hin|].
  exact (optional_fields_grouped none_line docs_dir_example none_record Hin).
Defined.

Lemma line_no_absent_for_none_witness :
  In none_record (parse_spelling_warnings none_line docs_dir_example).
Proof.
  apply (line_no_absent_for_none (pure_path := posix_path) none_line docs_dir_example
           none_line "docs/foo.rst" "None" "teh" "the" "context").
  - vm_compute. auto.
  - vm_compute. reflexivity.
  - left. reflexivity.
Defined.

(** An empty line is left out before the pattern is tried: it gives no
    record, message-only or other. *)
Lemma empty_line_gives_no_record :
  PyStr.splitlines text_with_empty_line = [none_line; ""; letters_line]
  /\ Re.search warning_pattern "" = None
  /\ parse_spelling_warnings text_with_empty_line docs_dir_example
     = [none_record; message_only letters_line]
  /\ parse_step docs_dir_example [none_record] "" = [none_record].
Proof. repeat split; vm_compute; reflexivity. Qed.


(** C7 as stated fails: the context of the first record starts at the quoted
    word, which is no word for the pattern and so no suggestion. *)
Lemma example_context_keeps_quoted_word :
  map context_line (parse_spelling_warnings example_text docs_dir_example)
  = [Some (dquote ++ "teh" ++ dquote ++ " recieve the"); None]
  /\ map suggestion (parse_spelling_warnings example_text docs_dir_example) = [None; None]
  /\ nth_error (map context_line (parse_spelling_warnings example_text docs_dir_example)) 0
     <> Some (Some "recieve the").
Proof.
  repeat split; try (vm_compute; reflexivity).
  vm_compute. discriminate.
Qed.

Lemma line_number_zero_not_shown_witness :
  parse_spelling_warnings "a.rst:0: (teh) the teh context" docs_dir_example
  = [line_zero_record]
  /\ _display_error all_files line_zero_record []
     = ([ ["a.rst:0: (teh) the teh context"];
          [];
          ["File path: /opt/airflow/docs/a.rst"];
          ["[red]Incorrect Spelling: 'teh'"];
          ["Suggested Spelling: 'the'"];
          ["Line with Error: 'teh context'"] ],
        Ok tt).
Proof.
  split; [vm_compute; reflexivity|].
  apply (proj2 (line_number_zero_not_shown (pure_path := posix_path) all_files
                  line_zero_record ["/"; "opt"; "airflow"; "docs"; "a.rst"] []
                  eq_refl eq_refl eq_refl eq_refl)).
  simpl. repeat (apply Forall_cons; [reflexivity|]). apply Forall_nil.
Defined.

Lemma execute_existing_database_and_collection_witness :
  Cosmos.calls (Cosmos.execute (fun _ => Cosmos.memory_hook) Cosmos.insert_task
                  (Cosmos.store_with_tasks, []))
  = [ Cosmos.DoesDatabaseExist "airflow";
      Cosmos.DoesCollectionExist "tasks" "airflow";
      Cosmos.UpsertDocument "{id: 1}" "airflow" "tasks" ].
Proof.
  apply (execute_existing_database_and_collection (fun _ => Cosmos.memory_hook)
           Cosmos.insert_task Cosmos.store_with_tasks Cosmos.store_with_tasks
           Cosmos.store_with_tasks eq_refl eq_refl).
Defined.

Lemma lt_orders_by_sort_key_witness :
  __lt__ (message_only "Some bogus line") line_zero_record = true
  /\ __lt__ line_zero_record (message_only "Some bogus line") = false.
Proof.
  destruct (lt_orders_by_sort_key (laws := posix_path_laws))
    as (_ & _ & _ & _ & _ & Hpath & _).
  apply Hpath. reflexivity.
Defined.

Lemma eq_ignores_suggestion_witness :
  __eq__ (with_suggestion (Some "then") none_record) (with_suggestion None none_record)
  = true.
Proof.
  exact (proj2 (eq_ignores_suggestion (laws := posix_path_laws)) none_record
           (Some "then") None).
Defined.

(** * Further properties *)

(** ** The Cosmos insert operator: every run *)

Section ExecuteRuns.

Variable Document : Type.
Variable hook_of : string -> Cosmos.AzureCosmosDBHook Document.
Variable self : Cosmos.AzureCosmosInsertDocumentOperator Document.

Let hook := hook_of (Cosmos.azure_cosmos_conn_id self).
Let db := Cosmos.database_name self.
Let coll := Cosmos.collection_name self.

(** X1: in a run where no check and no create raises, [execute] creates the
    database exactly when the check does not find it, then the collection
    exactly when the check does not find it, and then upserts the document;
    the run ends as the upsert ends. *)
Theorem execute_creates_what_is_missing
  (store store1 store2 store3 store4 : Cosmos.Store hook)
  (database_exists collection_exists : bool) :
  Cosmos.does_database_exist hook db store = (store1, Ok database_exists) ->
  (if database_exists then store2 = store1
   else Cosmos.create_database hook db store1 = (store2, Ok tt)) ->
  Cosmos.does_collection_exist hook coll db store2 = (store3, Ok collection_exists) ->
  (if collection_exists then store4 = store3
   else Cosmos.create_collection hook coll db store3 = (store4, Ok tt)) ->
  Cosmos.calls (Cosmos.execute hook_of self (store, []))
  = Cosmos.planned_calls self database_exists collection_exists
  /\ (Cosmos.store_after (Cosmos.execute hook_of self (store, [])),
      Cosmos.outcome (Cosmos.execute hook_of self (store, [])))
     = Cosmos.upsert_document hook (Cosmos.document self) db coll store4.
Proof.
  subst hook db coll. intros Hdb Hcreate_db Hcoll Hcreate_coll.
  unfold Cosmos.execute, Cosmos.calls, Cosmos.store_after, Cosmos.outcome,
    Cosmos.planned_calls, bind, when, ret, Cosmos.logged.
  cbn [fst snd]. rewrite Hdb.
  destruct database_exists; cbn [negb fst snd app].
  - subst store2. rewrite Hcoll.
    destruct collection_exists; cbn [negb fst snd app].
    + subst store4.
      destruct (Cosmos.upsert_document _ _ _ _ store3) as [s r]. split; reflexivity.
    + rewrite Hcreate_coll. cbn [fst snd app].
      destruct (Cosmos.upsert_document _ _ _ _ store4) as [s r]. split; reflexivity.
  - rewrite Hcreate_db. cbn [fst snd app]. rewrite Hcoll.
    destruct collection_exists; cbn [negb fst snd app].
    + subst store4.
      destruct (Cosmos.upsert_document _ _ _ _ store3) as [s r]. split; reflexivity.
    + rewrite Hcreate_coll. cbn [fst snd app].
      destruct (Cosmos.upsert_document _ _ _ _ store4) as [s r]. split; reflexivity.
Qed.

(** X2: a run of [execute] stops at the first check or create that raises.
    It ends with the exception of that call, in the state that call left,
    and the calls made are the checks and creates up to and with that call,
    a create being among them exactly when the check before it returned
    false; no upsert call is made. *)
Theorem execute_stops_at_first_failure
  (store store1 store2 store3 store4 : Cosmos.Store hook)
  (database_exists : bool) (exn : exception) :
  (Cosmos.does_database_exist hook db store = (store1, Raise exn) ->
   Cosmos.calls (Cosmos.execute hook_of self (store, []))
   = [Cosmos.DoesDatabaseExist db]
   /\ Cosmos.store_after (Cosmos.execute hook_of self (store, [])) = store1
   /\ Cosmos.outcome (Cosmos.execute hook_of self (store, [])) = Raise exn)
  /\ (Cosmos.does_database_exist hook db store = (store1, Ok false) ->
      Cosmos.create_database hook db store1 = (store2, Raise exn) ->
      Cosmos.calls (Cosmos.execute hook_of self (store, []))
      = [Cosmos.DoesDatabaseExist db; Cosmos.CreateDatabase db]
      /\ Cosmos.store_after (Cosmos.execute hook_of self (store, [])) = store2
      /\ Cosmos.outcome (Cosmos.execute hook_of self (store, [])) = Raise exn)
  /\ (Cosmos.does_database_exist hook db store = (store1, Ok database_exists) ->
      (if database_exists then store2 = store1
       else Cosmos.create_database hook db store1 = (store2, Ok tt)) ->
      Cosmos.does_collection_exist hook coll db store2 = (store3, Raise exn) ->
      Cosmos.calls (Cosmos.execute hook_of self (store, []))
      = ([Cosmos.DoesDatabaseExist db]
         ++ (if database_exists then [] else [Cosmos.CreateDatabase db])
         ++ [Cosmos.DoesCollectionExist coll db])%list
      /\ Cosmos.store_after (Cosmos.execute hook_of self (store, [])) = store3
      /\ Cosmos.outcome (Cosmos.execute hook_of self (store, [])) = Raise exn)
  /\ (Cosmos.does_database_exist hook db store = (store1, Ok database_exists) ->
      (if database_exists then store2 = store1
       else Cosmos.create_database hook db store1 = (store2, Ok tt)) ->
      Cosmos.does_collection_exist hook coll db store2 = (store3, Ok false) ->
      Cosmos.create_collection hook coll db store3 = (store4, Raise exn) ->
      Cosmos.calls (Cosmos.execute hook_of self (store, []))
      = ([Cosmos.DoesDatabaseExist db]
         ++ (if database_exists then [] else [Cosmos.CreateDatabase db])
         ++ [Cosmos.DoesCollectionExist coll db; Cosmos.CreateCollection coll db])%list
      /\ Cosmos.store_after (Cosmos.execute hook_of self (store, [])) = store4
      /\ Cosmos.outcome (Cosmos.execute hook_of self (store, [])) = Raise exn).
Proof.
  subst hook db coll.
  unfold Cosmos.execute, Cosmos.calls, Cosmos.store_after, Cosmos.outcome,
    bind, when, ret, Cosmos.logged.
  cbn [fst snd].
  split; [|split; [|split]].
  - intros Hdb. rewrite Hdb. cbn [fst snd app]. auto.
  - intros Hdb Hcreate_db. rewrite Hdb. cbn [negb fst snd app].
    rewrite Hcreate_db. cbn [fst snd app]. auto.
  - intros Hdb Hcreate_db Hcoll. rewrite Hdb.
    destruct database_exists; cbn [negb fst snd app].
    + subst store2. rewrite Hcoll. cbn [fst snd app]. auto.
    + rewrite Hcreate_db. cbn [fst snd app]. rewrite Hcoll. cbn [fst snd app]. auto.
  - intros Hdb Hcreate_db Hcoll Hcreate_coll. rewrite Hdb.
    destruct database_exists; cbn [negb fst snd app].
    + subst store2. rewrite Hcoll. cbn [negb fst snd app].
      rewrite Hcreate_coll. cbn [fst snd app]. auto.
    + rewrite Hcreate_db. cbn [fst snd app]. rewrite Hcoll. cbn [negb fst snd app].
      rewrite Hcreate_coll. cbn [fst snd app]. auto.
Qed.

End ExecuteRuns.

Lemma execute_creates_what_is_missing_witness :
  Cosmos.calls (Cosmos.execute (fun _ => Cosmos.memory_hook) Cosmos.insert_task
                  (Cosmos.empty_store, []))
  = [ Cosmos.DoesDatabaseExist "airflow";
      Cosmos.CreateDatabase "airflow";
      Cosmos.DoesCollectionExist "tasks" "airflow";
      Cosmos.CreateCollection "tasks" "airflow";
      Cosmos.UpsertDocument "{id: 1}" "airflow" "tasks" ]
  /\ Cosmos.store_after (Cosmos.execute (fun _ => Cosmos.memory_hook) Cosmos.insert_task
                           (Cosmos.empty_store, []))
     = {| Cosmos.databases := ["airflow"];
          Cosmos.collections := [("airflow", "tasks")];
          Cosmos.documents := [("airflow", "tasks", "{id: 1}")] |}.
Proof.
  split; [|reflexivity].
  apply (execute_creates_what_is_missing string (fun _ => Cosmos.memory_hook)
           Cosmos.insert_task Cosmos.empty_store Cosmos.empty_store
           {| Cosmos.databases := ["airflow"];
              Cosmos.collections := [];
              Cosmos.documents := [] |}
           {| Cosmos.databases := ["airflow"];
              Cosmos.collections := [];
              Cosmos.documents := [] |}
           {| Cosmos.databases := ["airflow"];
              Cosmos.collections := [("airflow", "tasks")];
              Cosmos.documents := [] |}
           false false eq_refl eq_refl eq_refl eq_refl).
Defined.

(** ** Equality and order of records together *)

Section EqualityAndOrder.

Context {pure_path : PurePath} {laws : PurePathLaws pure_path}.

Lemma eq_iff_fields (a b : SpellingError) :
  __eq__ a b = true
  <-> file_path a = file_path b
      /\ line_no a = line_no b
      /\ spelling a = spelling b
      /\ context_line a = context_line b
      /\ message a = message b.
Proof.
  unfold __eq__. rewrite !andb_true_iff.
  rewrite (option_eqb_eq path_eqb path_eqb_eq).
  rewrite (option_eqb_eq Z.eqb Z.eqb_eq).
  rewrite !(option_eqb_eq String.eqb String.eqb_eq).
  rewrite String.eqb_eq. tauto.
Qed.

Lemma eq_same_key (a b : SpellingError) :
  __eq__ a b = true -> sort_key a = sort_key b.
Proof.
  intros H. apply eq_iff_fields in H. destruct H as (Hp & Hn & Hs & Hc & Hm).
  unfold sort_key. now rewrite Hp, Hn, Hs, Hc, Hm.
Qed.

(** X3: [__eq__] is an equivalence, [__ne__] is its negation, and [__lt__]
    cannot tell equal records apart: equal records are never one before the
    other, and stand in the same order to every third record. *)
Theorem eq_is_equivalence_respected_by_lt :
  (forall a : SpellingError, __eq__ a a = true)
  /\ (forall a b : SpellingError, __eq__ a b = __eq__ b a)
  /\ (forall a b c : SpellingError,
        __eq__ a b = true -> __eq__ b c = true -> __eq__ a c = true)
  /\ (forall a b : SpellingError, __ne__ a b = true <-> __eq__ a b = false)
  /\ (forall a b : SpellingError,
        __eq__ a b = true -> __lt__ a b = false /\ __lt__ b a = false)
  /\ (forall a b c : SpellingError,
        __eq__ a b = true -> __lt__ a c = __lt__ b c /\ __lt__ c a = __lt__ c b).
Proof.
  split; [intros a; apply eq_iff_fields; auto|].
  split.
  { intros a b.
    destruct (__eq__ a b) eqn:Hab, (__eq__ b a) eqn:Hba; try reflexivity.
    - apply eq_iff_fields in Hab. rewrite <- Hba. symmetry.
      apply eq_iff_fields. intuition congruence.
    - apply eq_iff_fields in Hba. rewrite <- Hab.
      apply eq_iff_fields. intuition congruence. }
  split.
  { intros a b c Hab Hbc. apply eq_iff_fields in Hab, Hbc.
    apply eq_iff_fields. intuition congruence. }
  split.
  { intros a b. unfold __ne__. destruct (__eq__ a b); simpl; split; congruence. }
  split.
  { intros a b Hab. unfold __lt__. rewrite (eq_same_key a b Hab), tuple_lt_irrefl.
    split; reflexivity. }
  intros a b c Hab. unfold __lt__. rewrite (eq_same_key a b Hab).
  split; reflexivity.
Qed.

(** X4: a record and the same record with its missing path, line number,
    token and context filled in by the root path, zero and the empty text have
    the same key, so neither is before the other; they are equal only when
    nothing was missing. *)
Theorem defaults_tie_without_equality (e : SpellingError) :
  sort_key (with_defaults e) = sort_key e
  /\ __lt__ e (with_defaults e) = false
  /\ __lt__ (with_defaults e) e = false
  /\ (__eq__ e (with_defaults e) = true
      <-> file_path e <> None /\ line_no e <> None
          /\ spelling e <> None /\ context_line e <> None).
Proof.
  assert (Hkey : sort_key (with_defaults e) = sort_key e).
  { rewrite !sort_key_defaults. unfold file_path_or_root. reflexivity. }
  split; [exact Hkey|].
  unfold __lt__. rewrite Hkey, tuple_lt_irrefl.
  split; [reflexivity|]. split; [reflexivity|].
  rewrite eq_iff_fields. simpl. unfold file_path_or_root.
  destruct (file_path e), (line_no e), (spelling e), (context_line e);
    split; intros H; try (repeat split; congruence);
    destruct H as (Hp & Hn & Hs & Hc & Hm) || destruct H as (Hp & Hn & Hs & Hc);
    congruence.
Qed.

End EqualityAndOrder.

Lemma execute_stops_at_first_failure_witness :
  Cosmos.calls (Cosmos.execute (fun _ => Cosmos.read_only_hook) Cosmos.insert_task
                  (Cosmos.store_with_database, []))
  = [ Cosmos.DoesDatabaseExist "airflow";
      Cosmos.DoesCollectionExist "tasks" "airflow";
      Cosmos.CreateCollection "tasks" "airflow" ]
  /\ Cosmos.store_after (Cosmos.execute (fun _ => Cosmos.read_only_hook) Cosmos.insert_task
                           (Cosmos.store_with_database, []))
     = Cosmos.store_with_database
  /\ Cosmos.outcome (Cosmos.execute (fun _ => Cosmos.read_only_hook) Cosmos.insert_task
                        (Cosmos.store_with_database, []))
     = Raise RuntimeError.
Proof.
  apply (proj2 (proj2 (proj2
           (execute_stops_at_first_failure string (fun _ => Cosmos.read_only_hook)
              Cosmos.insert_task Cosmos.store_with_database Cosmos.store_with_database
              Cosmos.store_with_database Cosmos.store_with_database
              Cosmos.store_with_database true RuntimeError))));
    reflexivity.
Defined.

Lemma eq_is_equivalence_respected_by_lt_witness :
  __eq__ (with_suggestion None none_record) none_record = true
  /\ __lt__ (with_suggestion None none_record) line_zero_record
     = __lt__ none_record line_zero_record.
Proof.
  destruct (eq_is_equivalence_respected_by_lt (laws := posix_path_laws))
    as (_ & _ & _ & _ & _ & Hthird).
  split; [reflexivity|].
  apply (Hthird (with_suggestion None none_record) none_record line_zero_record).
  reflexivity.
Defined.

Lemma defaults_tie_without_equality_witness :
  sort_key (with_defaults (message_only "Some bogus line"))
  = sort_key (message_only "Some bogus line")
  /\ __eq__ (message_only "Some bogus line")
            (with_defaults (message_only "Some bogus line")) = false.
Proof.
  destruct (defaults_tie_without_equality (laws := posix_path_laws)
              (message_only "Some bogus line")) as (Hkey & _ & _ & _).
  split; [exact Hkey|reflexivity].
Defined.

(** ** The reporter: how it ends *)

Lemma raises_only_print {rich : RichConsole} (objects : list string)
  (allowed : exception -> Prop) :
  (forall e, refused e -> allowed e) -> raises_only (print objects) allowed.
Proof.
  intros Hallowed out e. unfold print.
  destruct (render_all objects) as [[]|e'] eqn:E; simpl; [discriminate|].
  intros H. injection H as <-. apply Hallowed.
  apply render_all_raises in E. destruct E as (text & _ & E). now exists text.
Qed.

Ltac print_raises := apply raises_only_print; intros ? ?; right; assumption.

Lemma raises_only_ret {A : Type} (a : A) (allowed : exception -> Prop) :
  raises_only (ret a) allowed.
Proof. intros out e H. discriminate. Qed.

Lemma raises_only_call {A : Type} (r : result A) (allowed : exception -> Prop) :
  (forall e, r = Raise e -> allowed e) -> raises_only (call r) allowed.
Proof. intros Hr out e H. apply Hr. exact H. Qed.

Lemma raises_only_bind {A B : Type} (m : io console A) (k : A -> io console B)
  (allowed : exception -> Prop) :
  raises_only m allowed -> (forall a, raises_only (k a) allowed) ->
  raises_only (bind m k) allowed.
Proof.
  intros Hm Hk out e. unfold bind.
  destruct (m out) as [out' [a|e']] eqn:E.
  - apply Hk.
  - simpl. intros H. injection H as <-. apply (Hm out). now rewrite E.
Qed.

Lemma raises_only_when (test : bool) (body : io console unit)
  (allowed : exception -> Prop) :
  (test = true -> raises_only body allowed) -> raises_only (when test body) allowed.
Proof. destruct test; intros H; [now apply H|apply raises_only_ret]. Qed.

Lemma raises_only_for_each {A : Type} (xs : list A) (body : A -> io console unit)
  (allowed : exception -> Prop) :
  (forall x, In x xs -> raises_only (body x) allowed) ->
  raises_only (for_each xs body) allowed.
Proof.
  induction xs as [|x xs IH]; simpl; intros H.
  - apply raises_only_ret.
  - apply raises_only_bind; [apply H; now left|].
    intros _. apply IH. intros y Hy. apply H. now right.
Qed.

Lemma in_enumerate {A : Type} (xs : list A) (start : Z) (numbered : Z * A) :
  In numbered (enumerate start xs) -> In (snd numbered) xs.
Proof.
  revert start. induction xs as [|x xs IH]; simpl; intros start; [tauto|].
  intros [<-|H]; [now left|right; eauto].
Qed.

Lemma for_each_ext {S A : Type} (xs : list A) (body1 body2 : A -> io S unit) (s : S) :
  (forall x s', In x xs -> body1 x s' = body2 x s') ->
  for_each xs body1 s = for_each xs body2 s.
Proof.
  revert s. induction xs as [|x xs IH]; simpl; intros s H; [reflexivity|].
  unfold bind. rewrite (H x s (or_introl eq_refl)).
  destruct (body2 x s) as [s' [[]|e]]; [|reflexivity].
  apply IH. intros y s'' Hy. apply H. now right.
Qed.

Lemma bind_ext_r {S A B : Type} (m : io S A) (k1 k2 : A -> io S B) (s : S) :
  (forall a s', k1 a s' = k2 a s') -> bind m k1 s = bind m k2 s.
Proof. intros H. unfold bind. destruct (m s) as [s' [a|e]]; auto. Qed.

Lemma bind_ext_l {S A B : Type} (m1 m2 : io S A) (k : A -> io S B) (s : S) :
  m1 s = m2 s -> bind m1 k s = bind m2 k s.
Proof. intros H. unfold bind. now rewrite H. Qed.

Section ReporterEnds.

Context {pure_path : PurePath} {rich : RichConsole}.
Variable fs : FileSystem.

Lemma display_error_raises (error : SpellingError) :
  raises_only (_display_error fs error) (fun e => raised_for fs e error \/ refused e).
Proof.
  unfold _display_error, raised_for.
  do 2 (apply raises_only_bind; [print_raises|intros _]).
  destruct (file_path error) as [path|]; [|apply raises_only_ret].
  apply raises_only_bind.
  { apply raises_only_call. intros e He. left. exists path. auto. }
  intros resolved.
  apply raises_only_bind; [print_raises|intros _].
  do 3 (apply raises_only_bind;
        [apply raises_only_when; intros _; print_raises|intros _]).
  destruct (line_no error) as [n|]; [|apply raises_only_ret].
  apply raises_only_when. intros Htest.
  apply andb_true_iff in Htest. destruct Htest as [Htest _].
  apply andb_true_iff in Htest. destruct Htest as [_ Hn].
  apply negb_true_iff, Z.eqb_neq in Hn.
  apply raises_only_bind; [print_raises|intros _].
  apply raises_only_bind; [|intros snippet; print_raises].
  apply raises_only_call. intros e He. left. exists path. split; [reflexivity|].
  right. exists n. auto.
Qed.

Lemma display_summary_raises (spelling_errors : list (string * list SpellingError)) :
  raises_only (display_spelling_error_summary fs spelling_errors)
    (fun e => (exists item error,
                 In item spelling_errors /\ In error (snd item) /\ raised_for fs e error)
              \/ refused e).
Proof.
  unfold display_spelling_error_summary.
  do 3 (apply raises_only_bind; [print_raises|intros _]).
  apply raises_only_bind.
  2: { intros _. repeat (apply raises_only_bind; [print_raises|intros _]).
       print_raises. }
  apply raises_only_for_each. intros item Hitem.
  apply (Permutation_in _ (sorted_perm _ item_lt spelling_errors)) in Hitem.
  apply raises_only_bind.
  { destruct (PyStr.truthy (fst item)); print_raises. }
  intros _. apply raises_only_for_each. intros numbered Hnumbered.
  apply in_enumerate in Hnumbered.
  apply (Permutation_in _ (sorted_perm _ __lt__ (snd item))) in Hnumbered.
  apply raises_only_bind; [print_raises|intros _].
  intros out e He.
  destruct (display_error_raises (snd numbered) out e He) as [H|H]; [left|now right].
  exists item, (snd numbered). auto.
Qed.

(** What a summary prints when it ends normally. *)
Lemma display_summary_shape (spelling_errors : list (string * list SpellingError))
  (out : console) :
  (exists body,
     display_spelling_error_summary fs spelling_errors out
     = (out ++ summary_header ++ body ++ summary_footer, Ok tt)%list)
  \/ exists e, snd (display_spelling_error_summary fs spelling_errors out) = Raise e.
Proof.
  unfold display_spelling_error_summary.
  match goal with
  | |- context [bind (for_each ?xs ?body) ?k] =>
      set (loop := for_each xs body);
      assert (Hloop : appends_only loop)
        by (apply appends_for_each; intros item;
            repeat first
              [ apply appends_display_error
              | appends_step
              | match goal with |- appends_only (if ?test then _ else _) => destruct test end ])
  end.
  unfold bind, print. cbn [render_all rbind].
  destruct (render_str (banner " Start spelling errors summary ")) as [[]|e];
    cbn [rbind]; [|right; now exists e].
  rewrite (Hloop _).
  destruct (snd (loop [])) as [[]|e]; [|right; now exists e].
  destruct (render_str (PyStr.repeat_char "=" 100)) as [[]|e];
    cbn [rbind]; [|right; now exists e].
  destruct (render_str msg) as [[]|e]; cbn [rbind]; [|right; now exists e].
  destruct (render_str (banner " End docs build errors summary ")) as [[]|e];
    cbn [rbind]; [|right; now exists e].
  left. exists (fst (loop [])). unfold summary_header, summary_footer.
  rewrite <- !app_assoc. reflexivity.
Qed.

(** X5: the reporter raises nothing of its own: when a summary ends with an
    exception, that exception was raised by [resolve] for the path of one of
    the records of the mapping, or by [prepare_code_snippet] for the path and
    the line number (not zero) of one of them, or by the console for a text
    that it does not read. *)
Theorem summary_raises_only_collaborator_errors
  (spelling_errors : list (string * list SpellingError)) (out : console) (e : exception) :
  snd (display_spelling_error_summary fs spelling_errors out) = Raise e ->
  (exists name records error path,
     In (name, records) spelling_errors
     /\ In error records
     /\ file_path error = Some path
     /\ (resolve fs path = Raise e
         \/ exists n, line_no error = Some n /\ n <> 0%Z
                      /\ prepare_code_snippet fs path n = Raise e))
  \/ exists text, render_str text = Raise e.
Proof.
  intros H. apply display_summary_raises in H.
  destruct H as [([name records] & error & Hitem & Herror & path & Hpath & Hsource)|H].
  - left. exists name, records, error, path. auto.
  - right. exact H.
Qed.

(** X6: when [resolve] and [prepare_code_snippet] raise for no record of
    the mapping, the summary ends normally, and what it prints starts with
    the opening banner and ends with the guidance and the closing banner;
    unless the console raises for a text that it does not read, which is then
    how the summary ends. *)
Theorem summary_ends_normally
  (spelling_errors : list (string * list SpellingError)) (out : console) :
  (forall name records error path,
     In (name, records) spelling_errors -> In error records ->
     file_path error = Some path ->
     (exists resolved, resolve fs path = Ok resolved)
     /\ (forall n, line_no error = Some n ->
                   exists snippet, prepare_code_snippet fs path n = Ok snippet)) ->
  (exists body,
     display_spelling_error_summary fs spelling_errors out
     = (out ++ summary_header ++ body ++ summary_footer, Ok tt)%list)
  \/ (exists e text,
        snd (display_spelling_error_summary fs spelling_errors out) = Raise e
        /\ render_str text = Raise e).
Proof.
  intros Hok.
  destruct (display_summary_shape spelling_errors out) as [H|(e & H)]; [now left|].
  right. exists e.
  destruct (display_summary_raises _ _ _ H)
    as [([name records] & error & Hitem & Herror & path & Hpath & Hsource)|(text & Htext)].
  - exfalso.
    destruct (Hok name records error path Hitem Herror Hpath) as [(resolved & Hres) Hsnip].
    destruct Hsource as [Hsource|(n & Hn & _ & Hsource)].
    + congruence.
    + destruct (Hsnip n Hn) as (snippet & Hsnippet). congruence.
  - exists text. auto.
Qed.

End ReporterEnds.

Section ReporterWithoutPaths.

Context {pure_path : PurePath} {rich : RichConsole}.
Variables fs1 fs2 : FileSystem.

Lemma display_error_without_path (fs : FileSystem) (error : SpellingError) (out : console) :
  file_path error = None ->
  _display_error fs error out = prints [[message error]; []] out.
Proof.
  intros Hpath. unfold _display_error. rewrite Hpath. same_prints.
Qed.

(** X7: a mapping whose records have no file path is rendered without the
    file system: the summary is the same with any two file systems, and when
    it ends with an exception, the console raised it for a text that it does
    not read. *)
Theorem records_without_path_need_no_file_system
  (spelling_errors : list (string * list SpellingError)) (out : console) :
  (forall name records error,
     In (name, records) spelling_errors -> In error records -> file_path error = None) ->
  display_spelling_error_summary fs1 spelling_errors out
  = display_spelling_error_summary fs2 spelling_errors out
  /\ (forall e,
        snd (display_spelling_error_summary fs1 spelling_errors out) = Raise e ->
        exists text, render_str text = Raise e).
Proof.
  intros Hnone. split.
  - unfold display_spelling_error_summary.
    do 3 (apply bind_ext_r; intros _ ?).
    apply bind_ext_l. apply for_each_ext. intros item ? Hitem.
    apply (Permutation_in _ (sorted_perm _ item_lt spelling_errors)) in Hitem.
    apply bind_ext_r. intros _ ?.
    apply for_each_ext. intros numbered ? Hnumbered.
    apply in_enumerate in Hnumbered.
    apply (Permutation_in _ (sorted_perm _ __lt__ (snd item))) in Hnumbered.
    apply bind_ext_r. intros _ ?.
    destruct item as [name records].
    rewrite !display_error_without_path by eauto. reflexivity.
  - intros e Hraise.
    apply display_summary_raises in Hraise.
    destruct Hraise as [([name records] & error & Hitem & Herror & path & Hpath & _)|H];
      [|exact H].
    rewrite (Hnone name records error Hitem Herror) in Hpath. discriminate.
Qed.

End ReporterWithoutPaths.

Section ReporterFailures.

Context {pure_path : PurePath} {rich : RichConsole}.
Variable fs : FileSystem.

(** X9: when the path cannot be resolved, only the message and the blank
    line are printed, and [_display_error] ends with the exception of
    [resolve]; when the excerpt cannot be made, the record is printed up to
    and with its line-number line, and it ends with the exception of
    [prepare_code_snippet].  In both cases a call that the console refuses
    comes first: it ends the record with the exception of the console. *)
Theorem display_error_stops_at_failure (error : SpellingError) (path : Path)
  (out : console) (e : exception) :
  file_path error = Some path ->
  (resolve fs path = Raise e ->
   _display_error fs error out = (prints [[message error]; []] ;; call (Raise e)) out)
  /\ (forall resolved n,
        resolve fs path = Ok resolved ->
        line_no error = Some n ->
        n <> 0%Z ->
        PyStr.endswith (as_posix path) "<unknown>" = false ->
        isfile fs path = true ->
        prepare_code_snippet fs path n = Raise e ->
        _display_error fs error out =
        (prints (record_lines error resolved
                 ++ [[("Line Number: " ++ PyStr.str_of_int n)%string]])%list ;;
         call (Raise e)) out).
Proof.
  intros Hpath. split.
  - intros Hresolve. unfold _display_error. rewrite Hpath, Hresolve. same_prints.
  - intros resolved n Hresolve Hline Hn Hmarker Hfile Hsnippet.
    unfold _display_error, record_lines.
    rewrite Hpath, Hline, Hmarker, Hfile, Hresolve.
    apply Z.eqb_neq in Hn. rewrite Hn, Hsnippet.
    destruct (text_given (spelling error)), (text_given (suggestion error)),
      (text_given (context_line error)); same_prints.
Qed.

End ReporterFailures.

(** ** Sorting the records *)

Section SortingWithTies.

Variable A : Type.
Variable lt : A -> A -> bool.

(** [x] is not after [y]. *)
Let not_after (x y : A) : Prop := lt y x = false.

Hypothesis lt_asym : forall x y, lt x y = true -> lt y x = false.
Hypothesis not_after_trans : forall x y z, not_after x y -> not_after y z -> not_after x z.

Lemma insert_sorted_weakly (x : A) (l : list A) :
  StronglySorted not_after l -> StronglySorted not_after (insert_sorted lt x l).
Proof.
  intros Hsorted. induction Hsorted as [|y l Hsorted IH Hy]; simpl.
  - repeat constructor.
  - destruct (lt y x) eqn:Hyx.
    + constructor; [exact IH|].
      apply (Permutation_Forall (Permutation_sym (insert_sorted_perm _ lt x l))).
      constructor; [|exact Hy]. apply lt_asym. exact Hyx.
    + constructor; [now constructor|].
      constructor; [exact Hyx|].
      rewrite Forall_forall in *. intros z Hz.
      apply (not_after_trans x y z); [exact Hyx|auto].
Qed.

Lemma sorted_weakly (l : list A) : StronglySorted not_after (sorted lt l).
Proof.
  induction l as [|x l IH]; simpl; [constructor|].
  apply insert_sorted_weakly. exact IH.
Qed.

Lemma weakly_sorted_unique (l1 l2 : list A) :
  (forall x y, In x l1 -> In y l1 -> not_after x y -> not_after y x -> x = y) ->
  StronglySorted not_after l1 -> StronglySorted not_after l2 ->
  Permutation l1 l2 -> l1 = l2.
Proof.
  intros Hanti H1. revert l2 Hanti.
  induction H1 as [|x l1 H1 IH Hx]; intros l2 Hanti H2 Hperm.
  - apply Permutation_nil in Hperm. now subst.
  - destruct H2 as [|y l2 H2 Hy].
    + apply Permutation_sym, Permutation_nil in Hperm. discriminate.
    + assert (Hxy : x = y).
      { assert (Hin1 : In x (y :: l2)) by (apply (Permutation_in _ Hperm); now left).
        assert (Hin2 : In y (x :: l1))
          by (apply (Permutation_in _ (Permutation_sym Hperm)); now left).
        destruct Hin1 as [->|Hin1]; [reflexivity|].
        destruct Hin2 as [->|Hin2]; [reflexivity|].
        rewrite Forall_forall in Hx, Hy.
        apply Hanti; [now left|now right|auto|auto]. }
      subst y. f_equal. apply IH.
      * intros a b Ha Hb. apply Hanti; now right.
      * exact H2.
      * now apply Permutation_cons_inv in Hperm.
Qed.

End SortingWithTies.

Section SortingRecords.

Context {pure_path : PurePath} {laws : PurePathLaws pure_path} {rich : RichConsole}.

Lemma lt_asym (a b : SpellingError) : __lt__ a b = true -> __lt__ b a = false.
Proof.
  intros Hab. destruct (__lt__ b a) eqn:Hba; [|reflexivity].
  pose proof (tuple_lt_trans _ _ _ Hab Hba) as Haa.
  rewrite tuple_lt_irrefl in Haa. discriminate.
Qed.

Lemma not_lt_trans (a b c : SpellingError) :
  __lt__ b a = false -> __lt__ c b = false -> __lt__ c a = false.
Proof.
  intros Hba Hcb. destruct (__lt__ c a) eqn:Hca; [|reflexivity].
  destruct (tuple_lt_total (sort_key a) (sort_key b)) as [Hab|[Hkey|Hab]].
  - pose proof (tuple_lt_trans _ _ _ Hca Hab) as H. unfold __lt__ in Hcb. congruence.
  - unfold __lt__ in *. rewrite Hkey in Hca. congruence.
  - unfold __lt__ in Hba. congruence.
Qed.

Lemma not_lt_same_key (a b : SpellingError) :
  __lt__ b a = false -> __lt__ a b = false -> sort_key a = sort_key b.
Proof.
  intros Hba Hab. unfold __lt__ in *.
  destruct (tuple_lt_total (sort_key a) (sort_key b)) as [H|[H|H]]; congruence.
Qed.

Lemma sorted_records_canonical (records records' : list SpellingError) :
  ties_are_equal records -> Permutation records records' ->
  sorted __lt__ records' = sorted __lt__ records.
Proof.
  intros Hties Hperm.
  apply (weakly_sorted_unique _ __lt__).
  - intros a b Ha Hb Hab Hba.
    apply Hties.
    + apply (Permutation_in _ (Permutation_sym Hperm)).
      apply (Permutation_in _ (sorted_perm _ __lt__ records')). exact Ha.
    + apply (Permutation_in _ (Permutation_sym Hperm)).
      apply (Permutation_in _ (sorted_perm _ __lt__ records')). exact Hb.
    + apply not_lt_same_key; assumption.
  - apply sorted_weakly; [exact lt_asym|exact not_lt_trans].
  - apply sorted_weakly; [exact lt_asym|exact not_lt_trans].
  - rewrite !sorted_perm. now symmetry.
Qed.

(** X10: [sorted(errors)] with [__lt__] really sorts: the result holds the
    same records, no record in it is before an earlier one, and when the list
    has no two different records with the same key the result does not depend
    on the order the records came in. *)
Theorem sorting_records_sorts (records : list SpellingError) :
  Permutation (sorted __lt__ records) records
  /\ StronglySorted (fun earlier later => __lt__ later earlier = false)
       (sorted __lt__ records)
  /\ (forall reordered,
        ties_are_equal records -> Permutation records reordered ->
        sorted __lt__ reordered = sorted __lt__ records).
Proof.
  split; [apply sorted_perm|].
  split; [apply sorted_weakly; [exact lt_asym|exact not_lt_trans]|].
  intros reordered. apply sorted_records_canonical.
Qed.

Variable fs : FileSystem.

Lemma item_lt_same_names (a a' b b' : string * list SpellingError) :
  fst a = fst a' -> fst b = fst b' -> fst a <> fst b -> item_lt a b = item_lt a' b'.
Proof.
  intros Ha Hb Hne. unfold item_lt, first_difference.
  rewrite <- Ha, <- Hb, (proj2 (String.eqb_neq _ _) Hne). reflexivity.
Qed.

Lemma insert_same_records (x x' : string * list SpellingError)
  (l l' : list (string * list SpellingError)) :
  same_records x x' -> Forall2 same_records l l' ->
  ~ In (fst x) (map fst l) ->
  Forall2 same_records (insert_sorted item_lt x l) (insert_sorted item_lt x' l').
Proof.
  intros Hx Hl. induction Hl as [|y y' l l' Hy Hl IH]; simpl; intros Hnotin.
  - constructor; [exact Hx|constructor].
  - rewrite <- (item_lt_same_names y y' x x').
    + destruct (item_lt y x).
      * constructor; [exact Hy|]. apply IH. tauto.
      * constructor; [exact Hx|]. constructor; [exact Hy|exact Hl].
    + apply Hy.
    + apply Hx.
    + intros Heq. apply Hnotin. now left.
Qed.

Lemma sorted_same_records (l l' : list (string * list SpellingError)) :
  Forall2 same_records l l' -> NoDup (map fst l) ->
  Forall2 same_records (sorted item_lt l) (sorted item_lt l').
Proof.
  intros Hl. induction Hl as [|x x' l l' Hx Hl IH]; simpl; intros Hnodup.
  - constructor.
  - inversion Hnodup as [|name names Hnotin Hrest]; subst.
    apply insert_same_records; [exact Hx|auto|].
    intros Hin. apply Hnotin.
    apply (Permutation_in _ (Permutation_map fst (sorted_perm _ item_lt l))). exact Hin.
Qed.

Lemma for_each_related {S A : Type} (R : A -> A -> Prop) (xs xs' : list A)
  (body : A -> io S unit) (s : S) :
  Forall2 R xs xs' -> (forall x x' s', R x x' -> body x s' = body x' s') ->
  for_each xs body s = for_each xs' body s.
Proof.
  intros Hxs Hbody. revert s. induction Hxs as [|x x' xs xs' Hx Hxs IH]; simpl; intros s.
  - reflexivity.
  - unfold bind. rewrite (Hbody x x' s Hx).
    destruct (body x' s) as [s' [[]|e]]; [apply IH|reflexivity].
Qed.

(** X11: the order in which the records of a category were collected does
    not show in the summary, when no two different records of the category
    have the same key. *)
Theorem summary_ignores_record_order
  (spelling_errors reordered : list (string * list SpellingError)) (out : console) :
  NoDup (map fst spelling_errors) ->
  Forall2 same_records spelling_errors reordered ->
  display_spelling_error_summary fs reordered out
  = display_spelling_error_summary fs spelling_errors out.
Proof.
  intros Hnodup Hsame. symmetry.
  unfold display_spelling_error_summary.
  do 3 (apply bind_ext_r; intros _ ?).
  apply bind_ext_l.
  apply (for_each_related same_records); [now apply sorted_same_records|].
  intros [name records] [name' records'] ? (Hname & Hperm & Hties).
  simpl in Hname, Hperm, Hties. subst name'. cbn [fst snd].
  now rewrite (sorted_records_canonical records records' Hties Hperm).
Qed.

End SortingRecords.

(** ** The matcher against what a pattern matches *)

Lemma append_nil_r (s : string) : s ++ "" = s.
Proof. induction s as [|c s IH]; simpl; congruence. Qed.

Lemma append_assoc (s t u : string) : (s ++ t) ++ u = s ++ (t ++ u).
Proof. induction s as [|c s IH]; simpl; congruence. Qed.

Lemma snoc_append (taken g : string) (c : ascii) :
  PyStr.snoc taken c ++ g = taken ++ String c g.
Proof. unfold PyStr.snoc. now rewrite append_assoc. Qed.

Section MatcherSound.

Context {R : Type}.

Lemma match_many_sound (cs : Re.charset) (s taken : string) (k : Re.cont) (r : R) :
  Re.match_many cs taken s k = Some r ->
  exists g s',
    s = g ++ s' /\ Re.all_accepted cs g = true /\ k (taken ++ g) s' = Some r.
Proof.
  revert taken. induction s as [|c s IH]; intros taken; simpl.
  - intros H. exists "", "". rewrite (append_nil_r taken). auto.
  - destruct (Re.accepts cs c) eqn:Hc.
    + intros H. apply or_else_some in H. destruct H as [H|H].
      * apply IH in H. destruct H as (g & s' & -> & Hg & H).
        exists (String c g), s'. simpl. rewrite Hc, Hg.
        rewrite snoc_append in H. auto.
      * exists "", (String c s). rewrite (append_nil_r taken). auto.
    + intros H. exists "", (String c s). rewrite (append_nil_r taken). auto.
Qed.

Lemma match_atom_sound (a : Re.atom) (s taken : string) (k : Re.cont) (r : R) :
  Re.match_atom a taken s k = Some r ->
  exists g s', s = g ++ s' /\ Re.atom_matches a g /\ k (taken ++ g) s' = Some r.
Proof.
  destruct a as [[| |] cs]; simpl.
  - destruct s as [|c s]; [discriminate|].
    destruct (Re.accepts cs c) eqn:Hc; [|discriminate].
    intros H. exists (String c ""), s. repeat split; [exists c; auto|exact H].
  - destruct s as [|c s].
    + intros H. exists "", "". rewrite (append_nil_r taken). auto.
    + destruct (Re.accepts cs c) eqn:Hc.
      * intros H. apply or_else_some in H. destruct H as [H|H].
        -- exists (String c ""), s. repeat split; [right; exists c; auto|exact H].
        -- exists "", (String c s). rewrite (append_nil_r taken). auto.
      * intros H. exists "", (String c s). rewrite (append_nil_r taken). auto.
  - apply match_many_sound.
Qed.

Lemma match_atoms_sound (body : list Re.atom) (s taken : string) (k : Re.cont) (r : R) :
  Re.match_atoms body taken s k = Some r ->
  exists g s', s = g ++ s' /\ Re.atoms_match body g /\ k (taken ++ g) s' = Some r.
Proof.
  revert s taken. induction body as [|a body IH]; intros s taken; simpl.
  - intros H. exists "", s. rewrite (append_nil_r taken). auto.
  - intros H. apply match_atom_sound in H. destruct H as (g1 & s1 & -> & Hg1 & H).
    apply IH in H. destruct H as (g2 & s2 & -> & Hg2 & H).
    exists (g1 ++ g2), s2. rewrite !append_assoc in *.
    split; [reflexivity|]. split; [exists g1, g2; auto|exact H].
Qed.

Lemma match_items_sound (p : Re.pattern) (groups : list string) (s : string)
  (k : list string -> string -> option R) (r : R) :
  Re.match_items p groups s k = Some r ->
  exists text captured s',
    s = text ++ s' /\ Re.items_match p text captured
    /\ k (groups ++ captured)%list s' = Some r.
Proof.
  revert groups s. induction p as [|[a|body] p IH]; intros groups s; simpl.
  - intros H. exists "", [], s. rewrite app_nil_r. auto.
  - intros H. apply match_atom_sound in H. destruct H as (g & s1 & -> & Hg & H).
    apply IH in H. destruct H as (text & captured & s' & -> & Htext & H).
    exists (g ++ text), captured, s'. rewrite append_assoc.
    split; [reflexivity|]. split; [exists g, text; auto|exact H].
  - intros H. apply match_atoms_sound in H. destruct H as (g & s1 & -> & Hg & H).
    simpl in H. apply IH in H. destruct H as (text & captured & s' & -> & Htext & H).
    exists (g ++ text), (g :: captured), s'. rewrite append_assoc.
    rewrite <- app_assoc in H.
    split; [reflexivity|]. split; [exists g, text, captured; auto|exact H].
Qed.

End MatcherSound.

Lemma match_here_sound (p : Re.pattern) (s : string) (groups : list string) :
  Re.match_here p s = Some groups ->
  exists text rest, s = text ++ rest /\ Re.items_match p text groups.
Proof.
  unfold Re.match_here. intros H. apply match_items_sound in H.
  destruct H as (text & captured & s' & -> & Htext & H).
  simpl in H. injection H as <-. eauto.
Qed.

Lemma search_sound (p : Re.pattern) (s : string) (groups : list string) :
  Re.search p s = Some groups ->
  exists skipped text rest,
    s = skipped ++ text ++ rest /\ Re.items_match p text groups.
Proof.
  induction s as [|c s IH]; simpl.
  - destruct (Re.match_here p "") as [g|] eqn:E; [|discriminate].
    intros H. injection H as <-. apply match_here_sound in E.
    destruct E as (text & rest & E & Htext). exists "", text, rest. auto.
  - destruct (Re.match_here p (String c s)) as [g|] eqn:E.
    + intros H. injection H as <-. apply match_here_sound in E.
      destruct E as (text & rest & E & Htext). exists "", text, rest. auto.
    + intros H. apply IH in H. destruct H as (skipped & text & rest & -> & Htext).
      exists (String c skipped), text, rest. auto.
Qed.

Lemma one_literal (c : ascii) (g : string) :
  Re.one_accepted (Re.Lit c) g -> g = String c "".
Proof.
  intros (d & -> & Hd). simpl in Hd. apply Ascii.eqb_eq in Hd. now subst.
Qed.

Lemma many_alone (cs : Re.charset) (g : string) :
  Re.atoms_match [Re.Atom Re.Many cs] g -> Re.all_accepted cs g = true.
Proof.
  simpl. intros (g1 & g2 & -> & Hg1 & ->). now rewrite append_nil_r.
Qed.

(** The texts of the parser's pattern. *)
Lemma warning_pattern_parts (text : string) (groups : list string) :
  Re.items_match warning_pattern text groups ->
  exists p0 p1 p2 p3 p4,
    groups = [p0; p1; p2; p3; p4] /\ parts_of text p0 p1 p2 p3 p4.
Proof.
  unfold warning_pattern. cbn [Re.items_match].
  intros (p0 & r0 & c0 & -> & Hp0 & -> & H).
  destruct H as (colon1 & r1 & -> & Hcolon1 & H).
  destruct H as (p1 & r2 & c1 & -> & Hp1 & -> & H).
  destruct H as (colon2 & r3 & -> & Hcolon2 & H).
  destruct H as (sp & r4 & -> & Hsp & H).
  destruct H as (open & r5 & -> & Hopen & H).
  destruct H as (p2 & r6 & c2 & -> & Hp2 & -> & H).
  destruct H as (close & r7 & -> & Hclose & H).
  destruct H as (s2 & r8 & -> & Hs2 & H).
  destruct H as (p3 & r9 & c3 & -> & Hp3 & -> & H).
  destruct H as (s3 & r10 & -> & Hs3 & H).
  destruct H as (p4 & r11 & c4 & -> & Hp4 & -> & -> & ->).
  apply one_literal in Hcolon1, Hcolon2, Hopen, Hclose. subst.
  apply many_alone in Hp0, Hp1, Hp2, Hp3, Hp4.
  exists p0, p1, p2, p3, p4. split; [reflexivity|].
  exists sp, s2, s3. rewrite append_nil_r. simpl. repeat split; assumption.
Qed.

(** ** Line numbers *)

Lemma word_is_no_space (c : ascii) :
  PyStr.is_word c = true -> PyStr.is_int_space c = false.
Proof.
  destruct c as [[] [] [] [] [] [] [] []]; vm_compute; congruence.
Qed.

Lemma word_is_no_sign (c : ascii) :
  PyStr.is_word c = true -> c <> "+"%char /\ c <> "-"%char.
Proof.
  destruct c as [[] [] [] [] [] [] [] []]; vm_compute; split; congruence.
Qed.

Lemma rstrip_words (s : string) :
  Re.all_accepted Re.Word s = true -> PyStr.rstrip s = s.
Proof.
  induction s as [|c s IH]; simpl; [reflexivity|].
  intros H. apply andb_true_iff in H. destruct H as [Hc Hs].
  rewrite (word_is_no_space c Hc), (IH Hs). reflexivity.
Qed.

Lemma lstrip_words (s : string) :
  Re.all_accepted Re.Word s = true -> PyStr.lstrip s = s.
Proof.
  destruct s as [|c s]; simpl; [reflexivity|].
  intros H. apply andb_true_iff in H. destruct H as [Hc _].
  now rewrite (word_is_no_space c Hc).
Qed.

Lemma int_digits_not_negative (s : string) (after_underscore : bool) (acc v : Z) (n m : nat) :
  PyStr.int_digits s after_underscore acc n = Some (v, m) -> (0 <= acc)%Z -> (0 <= v)%Z.
Proof.
  revert after_underscore acc n.
  induction s as [|c s IH]; intros u acc n; cbn [PyStr.int_digits].
  - destruct u; [discriminate|]. intros H. injection H as <- _. auto.
  - destruct (PyStr.is_decimal c) eqn:Hc.
    + intros H Hacc. apply (IH _ _ _ H).
      unfold PyStr.is_decimal, PyStr.in_range in Hc.
      apply andb_true_iff in Hc. destruct Hc as [Hlo _].
      apply N.leb_le in Hlo. unfold PyStr.digit_value. lia.
    + destruct (PyStr.is_code 95 c); [|discriminate].
      destruct u; [discriminate|]. apply IH.
Qed.

Lemma int_unsigned_not_negative (s : string) (v : Z) :
  PyStr.int_unsigned s = Ok v -> (0 <= v)%Z.
Proof.
  unfold PyStr.int_unsigned. destruct s as [|c s]; [discriminate|].
  destruct (PyStr.is_decimal c); [|discriminate].
  destruct (PyStr.int_digits (String c s) false 0 0) as [[v' m]|] eqn:E; [|discriminate].
  destruct (Nat.ltb PyStr.int_max_str_digits m); [discriminate|].
  intros H. injection H as <-. apply (int_digits_not_negative _ _ _ _ _ _ E). lia.
Qed.

Lemma int_of_word (s : string) :
  Re.all_accepted Re.Word s = true -> PyStr.int s = PyStr.int_unsigned s.
Proof.
  intros Hs. unfold PyStr.int. rewrite (lstrip_words s Hs), (rstrip_words s Hs).
  destruct s as [|c s]; [reflexivity|].
  simpl in Hs. apply andb_true_iff in Hs. destruct Hs as [Hc _].
  destruct (word_is_no_sign c Hc) as [Hplus Hminus].
  destruct c as [[] [] [] [] [] [] [] []]; try reflexivity; congruence.
Qed.

Section ParsedFields.

Context {pure_path : PurePath}.

Lemma search_parts (line : string) (groups : list string) :
  Re.search warning_pattern line = Some groups ->
  exists skipped text rest p0 p1 p2 p3 p4,
    line = skipped ++ text ++ rest
    /\ groups = [p0; p1; p2; p3; p4]
    /\ parts_of text p0 p1 p2 p3 p4.
Proof.
  intros H. apply search_sound in H. destruct H as (skipped & text & rest & Hline & H).
  apply warning_pattern_parts in H. destruct H as (p0 & p1 & p2 & p3 & p4 & Hg & Hparts).
  exists skipped, text, rest, p0, p1, p2, p3, p4. auto.
Qed.

(** X12: the line number of a record is never negative. *)
Theorem line_numbers_are_not_negative (text : string) (docs_dir : Path)
  (e : SpellingError) (n : Z) :
  In e (parse_spelling_warnings text docs_dir) ->
  line_no e = Some n ->
  (0 <= n)%Z.
Proof.
  rewrite parse_spelling_warnings_lines, in_flat_map.
  intros (line & _ & He) Hn.
  destruct (parse_step_message _ _ _ He) as [_ Hline].
  destruct (parse_step_cases docs_dir line Hline)
    as [H|(p0 & p1 & p2 & p3 & p4 & ln & Hsearch & Hln & H)];
    rewrite H in He; destruct He as [<-|[]]; simpl in Hn; [discriminate|].
  subst ln.
  apply search_parts in Hsearch.
  destruct Hsearch as (skipped & matched & rest & q0 & q1 & q2 & q3 & q4 & _ & Hg & Hparts).
  injection Hg as <- <- <- <- <-.
  destruct Hparts as (sp & s2 & s3 & _ & _ & _ & _ & _ & Hp1 & _).
  unfold parse_line_no in Hln.
  destruct (String.eqb p1 "None" || String.eqb p1 ""); [discriminate|].
  rewrite (int_of_word p1 Hp1) in Hln.
  destruct (PyStr.int_unsigned p1) as [v|] eqn:E; [|discriminate].
  simpl in Hln. injection Hln as <-. exact (int_unsigned_not_negative _ _ E).
Qed.

End ParsedFields.

(** ** The matcher finds what a pattern matches *)

Lemma all_accepted_app (cs : Re.charset) (s t : string) :
  Re.all_accepted cs (s ++ t) = Re.all_accepted cs s && Re.all_accepted cs t.
Proof.
  induction s as [|c s IH]; simpl; [reflexivity|].
  now rewrite IH, andb_assoc.
Qed.

Lemma take_all_accepted (cs : Re.charset) (s : string) :
  Re.all_accepted cs s = true -> Re.take_accepted cs s = s.
Proof.
  induction s as [|c s IH]; simpl; [reflexivity|].
  intros H. apply andb_true_iff in H. destruct H as [Hc Hs].
  now rewrite Hc, (IH Hs).
Qed.

Section MatcherComplete.

Context {R : Type}.

Lemma or_else_found (a b : option R) : a <> None \/ b <> None -> Re.or_else a b <> None.
Proof. destruct a; simpl; [congruence|tauto]. Qed.

Lemma match_many_fallback (cs : Re.charset) (s taken : string) (k : Re.cont (R := R)) :
  k taken s <> None -> Re.match_many cs taken s k <> None.
Proof.
  intros H. destruct s as [|c s]; simpl; [exact H|].
  destruct (Re.accepts cs c); [|exact H]. apply or_else_found. now right.
Qed.

Lemma match_many_complete (cs : Re.charset) (g s' taken : string) (k : Re.cont (R := R)) :
  Re.all_accepted cs g = true -> k (taken ++ g) s' <> None ->
  Re.match_many cs taken (g ++ s') k <> None.
Proof.
  revert taken. induction g as [|c g IH]; intros taken; simpl.
  - rewrite append_nil_r. intros _. apply match_many_fallback.
  - intros H Hk. apply andb_true_iff in H. destruct H as [Hc Hg]. rewrite Hc.
    apply or_else_found. left. apply IH; [exact Hg|].
    now rewrite snoc_append.
Qed.

Lemma match_atom_complete (a : Re.atom) (g s' taken : string) (k : Re.cont (R := R)) :
  Re.atom_matches a g -> k (taken ++ g) s' <> None ->
  Re.match_atom a taken (g ++ s') k <> None.
Proof.
  destruct a as [[| |] cs]; simpl.
  - intros (c & -> & Hc). simpl. now rewrite Hc.
  - intros [->|(c & -> & Hc)]; simpl.
    + rewrite append_nil_r. intros Hk. destruct s' as [|c s']; [exact Hk|].
      destruct (Re.accepts cs c); [|exact Hk]. apply or_else_found. now right.
    + rewrite Hc. intros Hk. apply or_else_found. now left.
  - apply match_many_complete.
Qed.

Lemma match_atoms_complete (body : list Re.atom) (g s' taken : string)
  (k : Re.cont (R := R)) :
  Re.atoms_match body g -> k (taken ++ g) s' <> None ->
  Re.match_atoms body taken (g ++ s') k <> None.
Proof.
  revert g taken. induction body as [|a body IH]; intros g taken; simpl.
  - intros ->. now rewrite append_nil_r.
  - intros (g1 & g2 & -> & Hg1 & Hg2) Hk. rewrite append_assoc.
    apply match_atom_complete; [exact Hg1|].
    apply IH; [exact Hg2|]. now rewrite append_assoc.
Qed.

Lemma match_items_complete (p : Re.pattern) (text s' : string)
  (groups captured : list string) (k : list string -> string -> option R) :
  Re.items_match p text captured -> k (groups ++ captured)%list s' <> None ->
  Re.match_items p groups (text ++ s') k <> None.
Proof.
  revert text groups captured. induction p as [|[a|body] p IH];
    intros text groups captured; simpl.
  - intros [-> ->]. now rewrite app_nil_r.
  - intros (g & rest & -> & Hg & Hrest) Hk. rewrite append_assoc.
    apply match_atom_complete; [exact Hg|]. now apply (IH _ _ captured).
  - intros (g & rest & captured' & -> & Hg & -> & Hrest) Hk. rewrite append_assoc.
    apply match_atoms_complete; [exact Hg|]. simpl.
    apply (IH _ _ captured'); [exact Hrest|]. now rewrite <- app_assoc.
Qed.

(** A starred atom whose continuation takes every text takes the longest
    run. *)
Lemma match_many_longest (cs : Re.charset) (s taken : string) (k : Re.cont (R := R))
  (f : string -> string -> R) :
  (forall g s', k g s' = Some (f g s')) ->
  Re.match_many cs taken s k
  = Some (f (taken ++ Re.take_accepted cs s) (Re.drop_accepted cs s)).
Proof.
  intros Hk. revert taken. induction s as [|c s IH]; intros taken; simpl.
  - now rewrite append_nil_r.
  - destruct (Re.accepts cs c).
    + rewrite IH, snoc_append. reflexivity.
    + now rewrite append_nil_r.
Qed.

(** The matcher gives equal results with continuations that agree. *)
Lemma match_many_ext (cs : Re.charset) (s taken : string) (k1 k2 : Re.cont (R := R)) :
  (forall g s', k1 g s' = k2 g s') ->
  Re.match_many cs taken s k1 = Re.match_many cs taken s k2.
Proof.
  intros Hk. revert taken. induction s as [|c s IH]; intros taken; simpl; [apply Hk|].
  destruct (Re.accepts cs c); [|apply Hk]. now rewrite IH, Hk.
Qed.

Lemma match_atom_ext (a : Re.atom) (s taken : string) (k1 k2 : Re.cont (R := R)) :
  (forall g s', k1 g s' = k2 g s') ->
  Re.match_atom a taken s k1 = Re.match_atom a taken s k2.
Proof.
  intros Hk. destruct a as [[| |] cs]; simpl.
  - destruct s as [|c s]; [reflexivity|]. destruct (Re.accepts cs c); auto.
  - destruct s as [|c s]; [apply Hk|]. destruct (Re.accepts cs c); [|apply Hk].
    now rewrite !Hk.
  - now apply match_many_ext.
Qed.

Lemma match_atoms_ext (body : list Re.atom) (s taken : string) (k1 k2 : Re.cont (R := R)) :
  (forall g s', k1 g s' = k2 g s') ->
  Re.match_atoms body taken s k1 = Re.match_atoms body taken s k2.
Proof.
  intros Hk. revert s taken. induction body as [|a body IH]; intros s taken; simpl.
  - apply Hk.
  - apply match_atom_ext. intros g s'. apply IH.
Qed.

Lemma match_items_ext (p : Re.pattern) (groups : list string) (s : string)
  (k1 k2 : list string -> string -> option R) :
  (forall g s', k1 g s' = k2 g s') ->
  Re.match_items p groups s k1 = Re.match_items p groups s k2.
Proof.
  intros Hk. revert groups s. induction p as [|[a|body] p IH]; intros groups s; simpl.
  - apply Hk.
  - apply match_atom_ext. intros g s'. apply IH.
  - apply match_atoms_ext. intros g s'. apply IH.
Qed.

Lemma match_items_app (p1 p2 : Re.pattern) (groups : list string) (s : string)
  (k : list string -> string -> option R) :
  Re.match_items (p1 ++ p2)%list groups s k
  = Re.match_items p1 groups s (fun groups' s' => Re.match_items p2 groups' s' k).
Proof.
  revert groups s. induction p1 as [|[a|body] p1 IH]; intros groups s; simpl.
  - reflexivity.
  - apply match_atom_ext. intros g s'. apply IH.
  - apply match_atoms_ext. intros g s'. apply IH.
Qed.

End MatcherComplete.

Lemma items_match_app (p1 p2 : Re.pattern) (t1 t2 : string) (c1 c2 : list string) :
  Re.items_match p1 t1 c1 -> Re.items_match p2 t2 c2 ->
  Re.items_match (p1 ++ p2)%list (t1 ++ t2) (c1 ++ c2)%list.
Proof.
  revert t1 c1. induction p1 as [|[a|body] p1 IH]; intros t1 c1; simpl.
  - intros [-> ->]. auto.
  - intros (g & rest & -> & Hg & Hrest) H2. exists g, (rest ++ t2).
    rewrite append_assoc. auto.
  - intros (g & rest & captured' & -> & Hg & -> & Hrest) H2.
    exists g, (rest ++ t2), (captured' ++ c2)%list. rewrite append_assoc. auto.
Qed.

Lemma match_here_complete (p : Re.pattern) (text rest : string) (captured : list string) :
  Re.items_match p text captured -> Re.match_here p (text ++ rest) <> None.
Proof.
  intros H. unfold Re.match_here.
  apply (match_items_complete p text rest [] captured); [exact H|discriminate].
Qed.

Lemma search_first (p : Re.pattern) (s : string) :
  Re.match_here p s <> None -> Re.search p s = Re.match_here p s.
Proof.
  intros H. destruct s as [|c s]; simpl;
    destruct (Re.match_here p _); congruence.
Qed.

Lemma search_complete (p : Re.pattern) (skipped text rest : string)
  (captured : list string) :
  Re.items_match p text captured -> Re.search p (skipped ++ text ++ rest) <> None.
Proof.
  intros H. induction skipped as [|c skipped IH].
  - simpl. rewrite search_first; now apply (match_here_complete p text rest captured).
  - simpl. destruct (Re.match_here p _); [discriminate|exact IH].
Qed.

(** ** The lines of a text *)

Lemma no_linebreak_snoc (s : string) (c : ascii) :
  PyStr.no_linebreak s = true -> PyStr.is_linebreak c = false ->
  PyStr.no_linebreak (PyStr.snoc s c) = true.
Proof.
  intros Hs Hc. unfold PyStr.snoc. induction s as [|d s IH]; simpl in *.
  - now rewrite Hc.
  - apply andb_true_iff in Hs. destruct Hs as [Hd Hs]. now rewrite Hd, IH.
Qed.

Lemma splitlines_from_no_linebreak (n : nat) (s cur line : string) :
  String.length s <= n ->
  PyStr.no_linebreak cur = true ->
  In line (PyStr.splitlines_from cur s) ->
  PyStr.no_linebreak line = true.
Proof.
  revert s cur. induction n as [|n IH]; intros s cur Hlen Hcur.
  - destruct s; [|simpl in Hlen; lia]. simpl.
    destruct (PyStr.is_empty cur); intros [<-|[]] || intros []; exact Hcur.
  - destruct s as [|c rest]; simpl.
    + destruct (PyStr.is_empty cur); intros [<-|[]] || intros []; exact Hcur.
    + simpl in Hlen. destruct (PyStr.is_linebreak c) eqn:Hc.
      * destruct rest as [|d rest'].
        -- simpl. intros [<-|[]]. exact Hcur.
        -- destruct (PyStr.is_code 13 c && PyStr.is_code 10 d);
             (intros [<-|Hin]; [exact Hcur|]);
             apply (IH _ "" ) in Hin; auto; simpl in *; lia.
      * apply IH; [lia|]. now apply no_linebreak_snoc.
Qed.

Lemma splitlines_no_linebreak (text line : string) :
  In line (PyStr.splitlines text) -> PyStr.no_linebreak line = true.
Proof.
  apply (splitlines_from_no_linebreak (String.length text)); auto.
Qed.

Lemma no_linebreak_no_newline (c : ascii) :
  PyStr.is_linebreak c = false -> Re.accepts Re.Dot c = true.
Proof.
  destruct c as [[] [] [] [] [] [] [] []]; vm_compute; congruence.
Qed.

Lemma no_linebreak_all_dot (s : string) :
  PyStr.no_linebreak s = true -> Re.all_accepted Re.Dot s = true.
Proof.
  induction s as [|c s IH]; cbn [Re.all_accepted PyStr.no_linebreak]; [reflexivity|].
  intros H. apply andb_true_iff in H. destruct H as [Hc Hs].
  apply negb_true_iff in Hc.
  now rewrite (no_linebreak_no_newline c Hc), (IH Hs).
Qed.

Lemma splitlines_from_at_newline (cur b : string) :
  PyStr.splitlines_from cur (newline ++ b) = cur :: PyStr.splitlines_from "" b.
Proof. destruct b; reflexivity. Qed.

Lemma filter_first {A : Type} (f : A -> bool) (x : A) (l : list A) :
  filter f (x :: l) = (filter f [x] ++ filter f l)%list.
Proof. simpl. destruct (f x); reflexivity. Qed.

Lemma filter_last_line (cur : string) :
  filter PyStr.truthy (PyStr.splitlines_from cur "") = filter PyStr.truthy [cur].
Proof.
  simpl. unfold PyStr.truthy. destruct (PyStr.is_empty cur) eqn:E; simpl; now rewrite ?E.
Qed.

Lemma splitlines_from_newline (n : nat) (a b cur : string) :
  String.length a <= n ->
  filter PyStr.truthy (PyStr.splitlines_from cur (a ++ newline ++ b))
  = (filter PyStr.truthy (PyStr.splitlines_from cur a)
     ++ filter PyStr.truthy (PyStr.splitlines b))%list.
Proof.
  assert (Hbase : forall cur',
    filter PyStr.truthy (PyStr.splitlines_from cur' (newline ++ b))
    = (filter PyStr.truthy (PyStr.splitlines_from cur' "")
       ++ filter PyStr.truthy (PyStr.splitlines b))%list).
  { intros cur'. now rewrite splitlines_from_at_newline, filter_first, filter_last_line. }
  revert a cur. induction n as [|n IH]; intros a cur Hlen.
  - destruct a; [apply Hbase|simpl in Hlen; lia].
  - destruct a as [|c a']; [apply Hbase|].
    simpl in Hlen.
    change (String c a' ++ newline ++ b) with (String c (a' ++ newline ++ b)).
    cbn [PyStr.splitlines_from].
    destruct (PyStr.is_linebreak c) eqn:Hc; [|apply IH; lia].
    assert (Hempty : filter PyStr.truthy (PyStr.splitlines_from "" "") = [])
      by reflexivity.
    destruct a' as [|d a''].
    + change ("" ++ newline ++ b) with (String (ascii_of_nat 10) b).
      cbv beta iota.
      destruct (PyStr.is_code 13 c && PyStr.is_code 10 (ascii_of_nat 10)).
      * rewrite (filter_first _ cur (PyStr.splitlines_from "" b)),
          (filter_first _ cur (PyStr.splitlines_from "" "")), Hempty, app_nil_r.
        reflexivity.
      * change (String (ascii_of_nat 10) b) with (newline ++ b).
        rewrite (filter_first _ cur (PyStr.splitlines_from "" (newline ++ b))),
          (filter_first _ cur (PyStr.splitlines_from "" "")), (Hbase ""), Hempty,
          app_nil_r.
        reflexivity.
    + change (String d a'' ++ newline ++ b) with (String d (a'' ++ newline ++ b)).
      cbv beta iota. simpl in Hlen.
      destruct (PyStr.is_code 13 c && PyStr.is_code 10 d).
      * rewrite (filter_first _ cur (PyStr.splitlines_from "" (a'' ++ newline ++ b))),
          (filter_first _ cur (PyStr.splitlines_from "" a'')), (IH a'' "") by lia.
        now rewrite app_assoc.
      * change (String d (a'' ++ newline ++ b)) with (String d a'' ++ newline ++ b).
        rewrite (filter_first _ cur (PyStr.splitlines_from "" (String d a'' ++ newline ++ b))),
          (filter_first _ cur (PyStr.splitlines_from "" (String d a''))),
          (IH (String d a'') "") by (simpl; lia).
        now rewrite app_assoc.
Qed.

(** ** The parser's pattern on a line *)

Lemma literal_matches (c : ascii) : Re.one_accepted (Re.Lit c) (String c "").
Proof. exists c. split; [reflexivity|]. simpl. apply Ascii.eqb_refl. Qed.

Lemma many_matches (cs : Re.charset) (g : string) :
  Re.all_accepted cs g = true -> Re.atoms_match [Re.Atom Re.Many cs] g.
Proof. intros H. exists g, "". rewrite append_nil_r. simpl. auto. Qed.

Lemma parts_match (text p0 p1 p2 p3 p4 : string) :
  parts_of text p0 p1 p2 p3 p4 ->
  Re.items_match warning_pattern text [p0; p1; p2; p3; p4].
Proof.
  intros (sp & s2 & s3 & -> & Hsp & Hs2 & Hs3 & Hp0 & Hp1 & Hp2 & Hp3 & Hp4).
  unfold warning_pattern. cbn [Re.items_match].
  exists p0. eexists. eexists. split; [reflexivity|].
  split; [now apply many_matches|]. split; [reflexivity|].
  exists ":". eexists. split; [reflexivity|]. split; [apply literal_matches|].
  exists p1. eexists. eexists. split; [reflexivity|].
  split; [now apply many_matches|]. split; [reflexivity|].
  exists ":". eexists. split; [reflexivity|]. split; [apply literal_matches|].
  exists sp. eexists. split; [reflexivity|]. split; [exact Hsp|].
  exists "(". eexists. split; [reflexivity|]. split; [apply literal_matches|].
  exists p2. eexists. eexists. split; [reflexivity|].
  split; [now apply many_matches|]. split; [reflexivity|].
  exists ")". eexists. split; [reflexivity|]. split; [apply literal_matches|].
  exists s2. eexists. split; [reflexivity|]. split; [exact Hs2|].
  exists p3. eexists. eexists. split; [reflexivity|].
  split; [now apply many_matches|]. split; [reflexivity|].
  exists s3. eexists. split; [reflexivity|]. split; [exact Hs3|].
  exists p4, "". eexists. split; [now rewrite append_nil_r|].
  split; [now apply many_matches|]. split; [reflexivity|]. split; reflexivity.
Qed.

Lemma match_here_whole_line (line : string) (groups : list string) :
  Re.all_accepted Re.Dot line = true ->
  Re.match_here warning_pattern line = Some groups ->
  Re.items_match warning_pattern line groups.
Proof.
  intros Hline. unfold Re.match_here.
  change warning_pattern
    with (pattern_front ++ [Re.Group [Re.Atom Re.Many Re.Dot]])%list.
  rewrite match_items_app. intros H.
  apply match_items_sound in H.
  destruct H as (text & captured & s' & -> & Htext & H).
  cbn [Re.match_items Re.match_atoms Re.match_atom app] in H.
  rewrite (match_many_longest Re.Dot s' ""
             (fun g s'' => Some (captured ++ [g])%list)
             (fun g _ => (captured ++ [g])%list)) in H by reflexivity.
  rewrite all_accepted_app in Hline. apply andb_true_iff in Hline.
  destruct Hline as [_ Hs'].
  rewrite (take_all_accepted _ _ Hs') in H. simpl in H. injection H as <-.
  apply items_match_app; [exact Htext|].
  cbn [Re.items_match]. exists s', "", []. rewrite append_nil_r.
  repeat split. now apply many_matches.
Qed.

Lemma search_whole_line (line : string) (groups : list string) :
  Re.all_accepted Re.Dot line = true ->
  Re.search warning_pattern line = Some groups ->
  exists p0 p1 p2 p3 p4,
    groups = [p0; p1; p2; p3; p4] /\ parts_of line p0 p1 p2 p3 p4.
Proof.
  intros Hline Hsearch.
  apply warning_pattern_parts, match_here_whole_line; [exact Hline|].
  rewrite <- Hsearch. symmetry. apply search_first.
  apply search_sound in Hsearch.
  destruct Hsearch as (skipped & text & rest & -> & Htext).
  apply warning_pattern_parts in Htext.
  destruct Htext as (p0 & p1 & p2 & p3 & p4 & _ & Hparts).
  destruct Hparts as (sp & s2 & s3 & -> & Hsp & Hs2 & Hs3 & Hp0 & Hp1 & Hp2 & Hp3 & Hp4).
  rewrite <- append_assoc.
  apply (match_here_complete warning_pattern _ rest [skipped ++ p0; p1; p2; p3; p4]).
  apply parts_match. exists sp, s2, s3. rewrite append_assoc.
  repeat split; try assumption.
  rewrite !all_accepted_app in *. apply andb_true_iff in Hline.
  destruct Hline as [Hskipped _]. now rewrite Hskipped, Hp0.
Qed.

(** ** The records and the lines they come from *)

Section ParsedLines.

Context {pure_path : PurePath}.

Lemma parse_nonempty_lines (docs_dir : Path) (lines : list string) :
  flat_map (parse_step docs_dir []) (filter PyStr.truthy lines)
  = flat_map (parse_step docs_dir []) lines.
Proof.
  induction lines as [|line lines IH]; simpl; [reflexivity|].
  destruct (PyStr.truthy line) eqn:Hline; simpl.
  - now rewrite IH.
  - now rewrite IH, (parse_step_blank docs_dir line Hline).
Qed.

(** X13: parsing two texts joined by a newline gives the records of the
    first followed by the records of the second; so a newline at the end of a
    text, or at its start, changes nothing. *)
Theorem parsing_joined_texts (docs_dir : Path) :
  (forall a b : string,
     parse_spelling_warnings (a ++ newline ++ b) docs_dir
     = (parse_spelling_warnings a docs_dir ++ parse_spelling_warnings b docs_dir)%list)
  /\ (forall a : string,
        parse_spelling_warnings (a ++ newline) docs_dir = parse_spelling_warnings a docs_dir)
  /\ (forall b : string,
        parse_spelling_warnings (newline ++ b) docs_dir = parse_spelling_warnings b docs_dir).
Proof.
  assert (Hjoin : forall a b : string,
     parse_spelling_warnings (a ++ newline ++ b) docs_dir
     = (parse_spelling_warnings a docs_dir ++ parse_spelling_warnings b docs_dir)%list).
  { intros a b. rewrite !parse_spelling_warnings_lines.
    rewrite <- (parse_nonempty_lines docs_dir (PyStr.splitlines (a ++ newline ++ b))).
    unfold PyStr.splitlines at 1.
    rewrite (splitlines_from_newline (String.length a) a b "") by auto.
    rewrite flat_map_app. fold (PyStr.splitlines a).
    now rewrite !parse_nonempty_lines. }
  split; [exact Hjoin|]. split.
  - intros a. replace (a ++ newline) with (a ++ newline ++ "").
    + rewrite Hjoin. apply app_nil_r.
    + unfold newline. reflexivity.
  - intros b. apply (Hjoin "" b).
Qed.

(** X14: the message of every record is one of the lines of the text: it is
    not empty, and it holds no line boundary. *)
Theorem messages_are_lines (text : string) (docs_dir : Path) (e : SpellingError) :
  In e (parse_spelling_warnings text docs_dir) ->
  In (message e) (PyStr.splitlines text)
  /\ message e <> ""
  /\ PyStr.no_linebreak (message e) = true.
Proof.
  rewrite parse_spelling_warnings_lines, in_flat_map.
  intros (line & Hin & He).
  destruct (parse_step_message _ _ _ He) as [-> Hline].
  split; [exact Hin|]. split.
  - intros Hempty. rewrite Hempty in Hline. discriminate.
  - exact (splitlines_no_linebreak text _ Hin).
Qed.

(** X15: a record with a file path is cut from its message: the message is
    the captured path text, a colon, the line-number text, a colon, a space,
    the token in parentheses, at most one space, the suggestion word (or
    nothing), at most one space, and the context, which runs to the end of the
    line; the token, the suggestion and the line-number text are words. *)
Theorem full_record_is_cut_from_its_message (text : string) (docs_dir : Path)
  (e : SpellingError) :
  In e (parse_spelling_warnings text docs_dir) ->
  file_path e <> None ->
  exists p0 p1 p2 p3 p4,
    parts_of (message e) p0 p1 p2 p3 p4
    /\ file_path e = Some (joinpath docs_dir p0)
    /\ parse_line_no p1 = Ok (line_no e)
    /\ spelling e = Some p2
    /\ suggestion e = (if PyStr.truthy p3 then Some p3 else None)
    /\ context_line e = Some p4.
Proof.
  rewrite parse_spelling_warnings_lines, in_flat_map.
  intros (line & Hin & He) Hpath.
  destruct (parse_step_message _ _ _ He) as [Hmsg Hline].
  destruct (parse_step_cases docs_dir line Hline)
    as [H|(p0 & p1 & p2 & p3 & p4 & ln & Hsearch & Hln & H)];
    rewrite H in He; destruct He as [<-|[]]; [now simpl in Hpath|].
  apply search_whole_line in Hsearch.
  - destruct Hsearch as (q0 & q1 & q2 & q3 & q4 & Hg & Hparts).
    injection Hg as <- <- <- <- <-.
    exists p0, p1, p2, p3, p4. simpl. auto 10.
  - apply no_linebreak_all_dot, (splitlines_no_linebreak text). exact Hin.
Qed.

(** X16: among the lines of a text, the pattern is found in exactly those
    that hold the shape; a line without the shape, when it is not empty, gives
    a message-only record, and a line with the shape gives a record with a
    file path unless its line-number text is no number. *)
Theorem shape_decides_full_record (text : string) (docs_dir : Path) (line : string) :
  In line (PyStr.splitlines text) ->
  (Re.search warning_pattern line <> None <-> has_shape line)
  /\ (~ has_shape line -> PyStr.truthy line = true ->
      parse_step docs_dir [] line = [message_only line])
  /\ (has_shape line ->
      exists p0 p1 p2 p3 p4,
        parts_of line p0 p1 p2 p3 p4
        /\ parse_step docs_dir [] line
           = match parse_line_no p1 with
             | Ok ln => [record_of docs_dir p0 p2 p3 p4 ln line]
             | Raise _ => [message_only line]
             end).
Proof.
  intros Hin.
  assert (Hdot : Re.all_accepted Re.Dot line = true)
    by (apply no_linebreak_all_dot, (splitlines_no_linebreak text); exact Hin).
  assert (Hiff : Re.search warning_pattern line <> None <-> has_shape line).
  { split.
    - destruct (Re.search warning_pattern line) as [groups|] eqn:E; [|congruence].
      intros _. apply search_whole_line in E; [|exact Hdot].
      destruct E as (p0 & p1 & p2 & p3 & p4 & _ & Hparts).
      destruct Hparts as (sp & s2 & s3 & Hline & Hsp & _ & _ & _ & Hp1 & Hp2 & _).
      exists p0, p1, sp, p2, (s2 ++ p3 ++ s3 ++ p4). auto.
    - intros (before & w1 & sp & w2 & after & Hline & Hw1 & Hsp & Hw2).
      rewrite <- (append_nil_r line).
      apply (search_complete warning_pattern "" line "" [before; w1; w2; ""; after]).
      apply parts_match. exists sp, "", "". simpl.
      rewrite Hline in Hdot. rewrite !all_accepted_app in Hdot.
      repeat (apply andb_true_iff in Hdot; destruct Hdot as [? Hdot]).
      repeat split; try assumption; try (left; reflexivity). }
  split; [exact Hiff|]. split.
  - intros Hshape Hline. unfold parse_step. rewrite Hline. simpl.
    destruct (Re.search warning_pattern line) as [groups|] eqn:E; [|reflexivity].
    exfalso. apply Hshape, Hiff. congruence.
  - intros Hshape. apply Hiff in Hshape.
    destruct (Re.search warning_pattern line) as [groups|] eqn:E; [|congruence].
    pose proof (search_truthy _ _ E) as Hline.
    pose proof E as Hparts. apply search_whole_line in Hparts; [|exact Hdot].
    destruct Hparts as (p0 & p1 & p2 & p3 & p4 & -> & Hparts).
    exists p0, p1, p2, p3, p4. split; [exact Hparts|].
    unfold parse_step. rewrite Hline, E. simpl. unfold full_record.
    destruct (parse_line_no p1); reflexivity.
Qed.

End ParsedLines.

(** ** The first group takes as much as it can *)

Section MatcherPriority.

Context {R : Type}.

Lemma match_many_none (cs : Re.charset) (g s' taken : string) (k : Re.cont (R := R)) :
  Re.match_many cs taken (g ++ s') k = None ->
  Re.all_accepted cs g = true ->
  k (taken ++ g) s' = None.
Proof.
  intros Hnone Hg. destruct (k (taken ++ g) s') eqn:E; [|reflexivity].
  exfalso. apply (match_many_complete cs g s' taken k Hg); congruence.
Qed.

Lemma match_many_priority (cs : Re.charset) (s taken : string) (k : Re.cont) (r : R) :
  Re.match_many cs taken s k = Some r ->
  exists g s',
    s = g ++ s' /\ Re.all_accepted cs g = true /\ k (taken ++ g) s' = Some r
    /\ forall g' s'',
         s = g' ++ s'' -> Re.all_accepted cs g' = true ->
         String.length g < String.length g' -> k (taken ++ g') s'' = None.
Proof.
  revert taken. induction s as [|c s IH]; intros taken; simpl.
  - intros H. exists "", "". rewrite (append_nil_r taken). repeat split; trivial.
    intros [|c g'] s'' Hs _ Hlen; [simpl in Hlen; lia|discriminate].
  - destruct (Re.accepts cs c) eqn:Hc.
    + destruct (Re.match_many cs (PyStr.snoc taken c) s k) as [r'|] eqn:E; simpl.
      * intros H. injection H as <-. apply IH in E.
        destruct E as (g & s' & -> & Hg & Hk & Hlonger).
        exists (String c g), s'. simpl. rewrite Hc, Hg.
        rewrite snoc_append in Hk. repeat split; trivial.
        intros [|d g'] s'' Hs Hg' Hlen; [simpl in Hlen; lia|].
        simpl in Hs. injection Hs as <- Hs. simpl in Hg', Hlen.
        apply andb_true_iff in Hg'. destruct Hg' as [_ Hg'].
        rewrite <- snoc_append. apply Hlonger; [exact Hs|exact Hg'|lia].
      * intros H. exists "", (String c s). rewrite (append_nil_r taken).
        repeat split; trivial.
        intros [|d g'] s'' Hs Hg' Hlen; [simpl in Hlen; lia|].
        simpl in Hs. injection Hs as <- Hs. simpl in Hg'.
        apply andb_true_iff in Hg'. destruct Hg' as [_ Hg'].
        rewrite <- snoc_append. subst s. exact (match_many_none cs g' s'' _ k E Hg').
    + intros H. exists "", (String c s). rewrite (append_nil_r taken).
      repeat split; trivial.
      intros [|d g'] s'' Hs Hg' Hlen; [simpl in Hlen; lia|].
      simpl in Hs. injection Hs as <- Hs. simpl in Hg'. rewrite Hc in Hg'. discriminate.
Qed.

End MatcherPriority.

Lemma shape_matches_tail (w1 sp w2 after : string) :
  Re.all_accepted Re.Word w1 = true -> Re.one_accepted Re.Space sp ->
  Re.all_accepted Re.Word w2 = true -> Re.all_accepted Re.Dot after = true ->
  Re.items_match pattern_tail (":" ++ w1 ++ ":" ++ sp ++ "(" ++ w2 ++ ")" ++ after)
    [w1; w2; ""; after].
Proof.
  intros Hw1 Hsp Hw2 Hafter.
  assert (H : Re.items_match warning_pattern
                ("" ++ ":" ++ w1 ++ ":" ++ sp ++ "(" ++ w2 ++ ")" ++ "" ++ "" ++ "" ++ after)
                [""; w1; w2; ""; after]).
  { apply parts_match. exists sp, "", "".
    repeat split; try assumption; try (left; reflexivity). }
  unfold warning_pattern in H. cbn [Re.items_match] in H.
  destruct H as (g & rest & captured & Hg & Hmany & Hcaptured & H).
  injection Hcaptured as <- <-.
  simpl in Hg. subst rest. exact H.
Qed.

Lemma match_here_first_group (line : string) :
  Re.match_here warning_pattern line
  = Re.match_many Re.Dot "" line
      (fun g s' => Re.match_items pattern_tail [g] s' (fun groups _ => Some groups)).
Proof. reflexivity. Qed.

Section LastShape.

Context {pure_path : PurePath}.

Lemma first_group_is_longest (line p0 p1 p2 p3 p4 : string) :
  Re.all_accepted Re.Dot line = true ->
  Re.search warning_pattern line = Some [p0; p1; p2; p3; p4] ->
  forall before w1 sp w2 after,
    line = before ++ ":" ++ w1 ++ ":" ++ sp ++ "(" ++ w2 ++ ")" ++ after ->
    Re.all_accepted Re.Word w1 = true -> Re.one_accepted Re.Space sp ->
    Re.all_accepted Re.Word w2 = true ->
    String.length before <= String.length p0.
Proof.
  intros Hdot Hsearch before w1 sp w2 after Hline Hw1 Hsp Hw2.
  destruct (Nat.le_gt_cases (String.length before) (String.length p0)) as [|Hlonger];
    [assumption|exfalso].
  assert (Hhere : Re.match_here warning_pattern line = Some [p0; p1; p2; p3; p4]).
  { rewrite <- Hsearch. symmetry. apply search_first.
    destruct (search_whole_line line _ Hdot Hsearch) as (q0 & q1 & q2 & q3 & q4 & _ & Hparts).
    rewrite <- (append_nil_r line).
    apply (match_here_complete warning_pattern line "" [q0; q1; q2; q3; q4]).
    now apply parts_match. }
  rewrite match_here_first_group in Hhere.
  apply match_many_priority in Hhere.
  destruct Hhere as (g & s' & Hg & Hall & Hk & Hnone).
  change ("" ++ g) with g in Hk.
  assert (Hp0 : g = p0).
  { apply match_items_sound in Hk.
    destruct Hk as (text & captured & s'' & _ & _ & Hk).
    simpl in Hk. injection Hk as Hk. congruence. }
  subst g.
  specialize (Hnone before (":" ++ w1 ++ ":" ++ sp ++ "(" ++ w2 ++ ")" ++ after) Hline).
  rewrite Hline, !all_accepted_app in Hdot.
  apply andb_true_iff in Hdot. destruct Hdot as [Hbefore Hdot].
  repeat (apply andb_true_iff in Hdot; destruct Hdot as [_ Hdot]).
  specialize (Hnone Hbefore Hlonger).
  change ("" ++ before) with before in Hnone.
  revert Hnone. rewrite <- (append_nil_r (":" ++ w1 ++ ":" ++ sp ++ "(" ++ w2 ++ ")" ++ after)).
  apply (match_items_complete pattern_tail _ "" [before] [w1; w2; ""; after]).
  - apply shape_matches_tail; assumption.
  - discriminate.
Qed.

(** X17: in a record with a file path, the captured path text runs to the
    last place of the message where the shape starts: a message that holds the
    shape more than once is cut at the last one, and what comes before it,
    colons and parentheses included, is the path text. *)
Theorem path_text_runs_to_last_shape (text : string) (docs_dir : Path)
  (e : SpellingError) :
  In e (parse_spelling_warnings text docs_dir) ->
  file_path e <> None ->
  exists p0 p1 p2 p3 p4,
    parts_of (message e) p0 p1 p2 p3 p4
    /\ file_path e = Some (joinpath docs_dir p0)
    /\ forall before w1 sp w2 after,
         message e = before ++ ":" ++ w1 ++ ":" ++ sp ++ "(" ++ w2 ++ ")" ++ after ->
         Re.all_accepted Re.Word w1 = true -> Re.one_accepted Re.Space sp ->
         Re.all_accepted Re.Word w2 = true ->
         String.length before <= String.length p0.
Proof.
  rewrite parse_spelling_warnings_lines, in_flat_map.
  intros (line & Hin & He) Hpath.
  destruct (parse_step_message _ _ _ He) as [Hmsg Hline].
  assert (Hdot : Re.all_accepted Re.Dot line = true)
    by (apply no_linebreak_all_dot, (splitlines_no_linebreak text); exact Hin).
  destruct (parse_step_cases docs_dir line Hline)
    as [H|(p0 & p1 & p2 & p3 & p4 & ln & Hsearch & Hln & H)];
    rewrite H in He; destruct He as [<-|[]]; [now simpl in Hpath|].
  pose proof (first_group_is_longest line p0 p1 p2 p3 p4 Hdot Hsearch) as Hlast.
  apply search_whole_line in Hsearch; [|exact Hdot].
  destruct Hsearch as (q0 & q1 & q2 & q3 & q4 & Hg & Hparts).
  injection Hg as <- <- <- <- <-.
  exists p0, p1, p2, p3, p4. simpl. auto.
Qed.

End LastShape.

(** ** The reporter: records without an excerpt *)

Section ReporterNoExcerpt.

Context {pure_path : PurePath} {rich : RichConsole}.
Variable fs : FileSystem.

(** X18: for a record whose path ends in the unknown-location marker, or
    names no file on disk, the line-number line and the excerpt are left out
    whatever the line number is, and [prepare_code_snippet] has no part in
    the result: the calls made are the message, a blank line, the resolved
    path, and the token, suggestion and context that are given, up to the
    first call that the console refuses. *)
Theorem no_excerpt_without_known_file (error : SpellingError) (path : Path)
  (out : console) :
  file_path error = Some path ->
  PyStr.endswith (as_posix path) "<unknown>" = true \/ isfile fs path = false ->
  _display_error fs error out =
  match resolve fs path with
  | Ok resolved => prints (record_lines error resolved) out
  | Raise exn => (prints [[message error]; []] ;; call (Raise exn)) out
  end.
Proof.
  intros Hpath Hskip.
  assert (Htest : forall n,
            negb (PyStr.endswith (as_posix path) "<unknown>") && negb (Z.eqb n 0)
            && isfile fs path = false).
  { intros n. destruct Hskip as [-> | ->]; [reflexivity|].
    apply andb_false_r. }
  unfold _display_error, record_lines. rewrite Hpath.
  destruct (resolve fs path) as [resolved|exn];
    (destruct (line_no error) as [n|]; [rewrite (Htest n)|]);
    destruct (text_given (spelling error)), (text_given (suggestion error)),
      (text_given (context_line error)); same_prints.
Qed.

End ReporterNoExcerpt.

(** ** The further properties on concrete inputs *)

Lemma no_excerpt_without_known_file_witness :
  _display_error no_files line_three_record []
  = ([ ["a.rst:3: (teh) the teh context"];
       [];
       ["File path: /opt/airflow/docs/a.rst"];
       ["[red]Incorrect Spelling: 'teh'"];
       ["Suggested Spelling: 'the'"];
       ["Line with Error: 'teh context'"] ],
     Ok tt).
Proof.
  rewrite (no_excerpt_without_known_file (pure_path := posix_path) no_files
             line_three_record ["/"; "opt"; "airflow"; "docs"; "a.rst"] []
             eq_refl (or_intror eq_refl)).
  reflexivity.
Defined.

Lemma summary_raises_only_collaborator_errors_witness :
  snd (display_spelling_error_summary unreadable_files one_category []) = Raise OSError
  /\ ((exists name records error path,
         In (name, records) one_category
         /\ In error records
         /\ file_path error = Some path
         /\ (resolve unreadable_files path = Raise OSError
             \/ exists n, line_no error = Some n /\ n <> 0%Z
                          /\ prepare_code_snippet unreadable_files path n = Raise OSError))
      \/ exists text, render_str text = Raise OSError).
Proof.
  split; [vm_compute; reflexivity|].
  apply (summary_raises_only_collaborator_errors (pure_path := posix_path)
           unreadable_files one_category [] OSError).
  vm_compute. reflexivity.
Defined.

Lemma summary_ends_normally_witness :
  (exists body,
     display_spelling_error_summary all_files one_category []
     = (summary_header ++ body ++ summary_footer, Ok tt)%list)
  \/ (exists e text,
        snd (display_spelling_error_summary all_files one_category []) = Raise e
        /\ render_str text = Raise e).
Proof.
  apply (summary_ends_normally (pure_path := posix_path) all_files one_category []).
  intros name records error path _ _ _. split.
  - exists path. reflexivity.
  - intros n _. exists "   1 | Some text". reflexivity.
Defined.

Lemma records_without_path_need_no_file_system_witness :
  display_spelling_error_summary all_files [("", [message_only "see [/usr/lib]"])] []
  = (summary_header
     ++ [ [PyStr.repeat_char "=" 30; " [bright_blue]General[/] "; PyStr.repeat_char "=" 30];
          [PyStr.repeat_char "-" 30; "Error   1"; PyStr.repeat_char "-" 30] ],
     Raise MarkupError)%list
  /\ display_spelling_error_summary all_files [("", [message_only "see [/usr/lib]"])] []
     = display_spelling_error_summary unreadable_files
         [("", [message_only "see [/usr/lib]"])] []
  /\ exists text, render_str text = Raise MarkupError.
Proof.
  assert (Hnone : forall name records error,
            In (name, records) [("", [message_only (pure_path := posix_path) "see [/usr/lib]"])] ->
            In error records -> file_path error = None).
  { intros name records error [Hitem|[]] Herror.
    injection Hitem as _ <-. destruct Herror as [<-|[]]. reflexivity. }
  destruct (records_without_path_need_no_file_system (pure_path := posix_path)
              all_files unreadable_files _ [] Hnone) as [Hsame Hraise].
  split; [vm_compute; reflexivity|]. split; [exact Hsame|].
  apply Hraise. vm_compute. reflexivity.
Defined.

Lemma line_number_shown_witness :
  _display_error all_files line_three_record []
  = ([ ["a.rst:3: (teh) the teh context"];
       [];
       ["File path: /opt/airflow/docs/a.rst"];
       ["[red]Incorrect Spelling: 'teh'"];
       ["Suggested Spelling: 'the'"];
       ["Line with Error: 'teh context'"];
       ["Line Number: 3"];
       ["   1 | Some text"] ],
     Ok tt).
Proof.
  etransitivity; [|reflexivity].
  refine (line_number_shown (pure_path := posix_path) all_files line_three_record
            ["/"; "opt"; "airflow"; "docs"; "a.rst"]
            ["/"; "opt"; "airflow"; "docs"; "a.rst"] 3%Z "   1 | Some text" []
            eq_refl eq_refl _ eq_refl eq_refl eq_refl eq_refl).
  discriminate.
Defined.

Lemma display_error_stops_at_failure_witness :
  _display_error unreadable_files line_three_record []
  = ([ ["a.rst:3: (teh) the teh context"];
       [];
       ["File path: /opt/airflow/docs/a.rst"];
       ["[red]Incorrect Spelling: 'teh'"];
       ["Suggested Spelling: 'the'"];
       ["Line with Error: 'teh context'"];
       ["Line Number: 3"] ],
     Raise OSError).
Proof.
  etransitivity; [|reflexivity].
  refine (proj2 (display_error_stops_at_failure (pure_path := posix_path)
                   unreadable_files line_three_record
                   ["/"; "opt"; "airflow"; "docs"; "a.rst"] [] OSError eq_refl)
            ["/"; "opt"; "airflow"; "docs"; "a.rst"] 3%Z
            eq_refl eq_refl _ eq_refl eq_refl eq_refl).
  discriminate.
Defined.

Lemma sorting_records_sorts_witness :
  Permutation
    (sorted __lt__ [line_three_record; message_only "Some bogus line"])
    [line_three_record; message_only "Some bogus line"]
  /\ sorted __lt__ [line_three_record; message_only "Some bogus line"]
     = [message_only "Some bogus line"; line_three_record].
Proof.
  destruct (sorting_records_sorts (laws := posix_path_laws)
              [line_three_record; message_only "Some bogus line"]) as (Hperm & _ & _).
  split; [exact Hperm|reflexivity].
Defined.

Lemma summary_ignores_record_order_witness :
  display_spelling_error_summary all_files one_category_reordered []
  = display_spelling_error_summary all_files one_category [].
Proof.
  apply (summary_ignores_record_order (laws := posix_path_laws) all_files).
  - repeat constructor. intros [].
  - constructor; [|constructor]. split; [reflexivity|]. split.
    + apply perm_swap.
    + intros a b [<-|[<-|[]]] [<-|[<-|[]]] Hkey;
        try reflexivity; vm_compute in Hkey; discriminate.
Defined.

Lemma line_numbers_are_not_negative_witness :
  parse_spelling_warnings "a.rst:3: (teh) the teh context" docs_dir_example
  = [line_three_record]
  /\ (0 <= 3)%Z.
Proof.
  split; [vm_compute; reflexivity|].
  apply (line_numbers_are_not_negative (pure_path := posix_path)
           "a.rst:3: (teh) the teh context" docs_dir_example line_three_record 3%Z).
  - left. vm_compute. reflexivity.
  - reflexivity.
Defined.

Lemma messages_are_lines_witness :
  In (message_only "Some bogus line") (parse_spelling_warnings example_text docs_dir_example)
  /\ In "Some bogus line" (PyStr.splitlines example_text).
Proof.
  assert (H : In (message_only "Some bogus line")
                (parse_spelling_warnings example_text docs_dir_example))
    by (right; left; vm_compute; reflexivity).
  split; [exact H|].
  exact (proj1 (messages_are_lines (pure_path := posix_path) example_text docs_dir_example
                  (message_only "Some bogus line") H)).
Defined.

Lemma full_record_is_cut_from_its_message_witness :
  parse_spelling_warnings none_line docs_dir_example = [none_record]
  /\ exists p0 p1 p2 p3 p4,
       parts_of none_line p0 p1 p2 p3 p4
       /\ file_path none_record = Some (joinpath docs_dir_example p0)
       /\ parse_line_no p1 = Ok (line_no none_record)
       /\ spelling none_record = Some p2
       /\ suggestion none_record = (if PyStr.truthy p3 then Some p3 else None)
       /\ context_line none_record = Some p4.
Proof.
  split; [vm_compute; reflexivity|].
  apply (full_record_is_cut_from_its_message (pure_path := posix_path)
           none_line docs_dir_example none_record).
  - left. vm_compute. reflexivity.
  - discriminate.
Defined.

Lemma shape_decides_full_record_witness :
  (Re.search warning_pattern "Some bogus line" <> None <-> has_shape "Some bogus line")
  /\ Re.search warning_pattern "Some bogus line" = None.
Proof.
  split; [|vm_compute; reflexivity].
  apply (shape_decides_full_record (pure_path := posix_path) example_text docs_dir_example
           "Some bogus line").
  right. left. vm_compute. reflexivity.
Defined.

Lemma path_text_runs_to_last_shape_witness :
  parse_spelling_warnings two_shapes_line docs_dir_example = [two_shapes_record]
  /\ exists p0 p1 p2 p3 p4,
       parts_of two_shapes_line p0 p1 p2 p3 p4
       /\ file_path two_shapes_record = Some (joinpath docs_dir_example p0)
       /\ forall before w1 sp w2 after,
            two_shapes_line = before ++ ":" ++ w1 ++ ":" ++ sp ++ "(" ++ w2 ++ ")" ++ after ->
            Re.all_accepted Re.Word w1 = true -> Re.one_accepted Re.Space sp ->
            Re.all_accepted Re.Word w2 = true ->
            String.length before <= String.length p0.
Proof.
  split; [vm_compute; reflexivity|].
  apply (path_text_runs_to_last_shape (pure_path := posix_path)
           two_shapes_line docs_dir_example two_shapes_record).
  - left. vm_compute. reflexivity.
  - discriminate.
Defined.
